(** * I2C_24LC1025: the paged, bank-switched EEPROM block-transfer engine

    A shallow embedding of [libraries/I2C_24LC1025/I2C_24LC1025.cpp] and
    the properties of its chunked write, read, update and verify paths.

    The driver is stateful C++ talking to an external two-wire bus, so the
    embedding is written in a small state-and-failure monad over

    - the driver object (the private fields of the class),
    - the world outside the driver: the EEPROM cells, the clock, and a
      script that decides how the bus answers each transaction,
    - the trace of low-level block transfers the driver issued.

    Fixed-width C integers are [Z] with their wrap-around written out. *)

From Stdlib Require Import ZArith List Lia Bool Arith.
Import ListNotations.
Open Scope Z_scope.

(** ** Fixed-width arithmetic *)

Definition u8 (x : Z) : Z := x mod 256.
Definition u16 (x : Z) : Z := x mod 65536.
Definition u32 (x : Z) : Z := x mod 4294967296.

(** ** The driver object *)

(** The private fields of [class I2C_24LC1025]. *)
Record I2C_24LC1025 := mkDriver {
  _deviceAddress : Z;   (* uint8_t  *)
  _actualAddress : Z;   (* uint8_t, the control byte of the last transfer *)
  _lastWrite     : Z;   (* uint32_t, micros() after the last write *)
  _deviceSize    : Z;   (* uint32_t *)
  _pageSize      : Z;   (* uint8_t  *)
  _extraTWR      : Z    (* uint8_t, milliseconds *)
}.

(** Modelled from the spec: the header [I2C_24LC1025.h] is not part of the
    sources; the spec gives the device a page size of 128 bytes and two
    banks of 0x10000 bytes. *)
Definition I2C_PAGESIZE_24LC1025 : Z := 128.
Definition I2C_DEVICESIZE_24LC1025 : Z := 131072.

Definition I2C_WRITEDELAY : Z := 5000.

(** ** The world outside the driver *)

(** One low-level block transfer, as the driver issued it. *)
Inductive Call :=
| CallWrite (addr cnt : Z) (data : list Z) (rv : Z)
    (* _WriteBlock(addr, data, cnt) returned rv *)
| CallRead (addr cnt : Z) (got : list Z).
    (* _ReadBlock(addr, _, cnt) delivered the bytes got *)

(** One zero-length probe on the bus: the clock reading when it was sent,
    the control byte and the status the bus reported. *)
Record Probe := mkProbe { p_time : Z; p_ctrl : Z; p_status : Z }.

Record World := mkWorld {
  w_esp   : bool;        (* compiled for ESP32 / ESP8266 *)
  w_mem   : Z -> Z;      (* EEPROM cells, by physical address 0 .. 0x1FFFF *)
  w_ptr   : Z;           (* the device's internal address pointer *)
  w_now   : Z;           (* microseconds since boot, unbounded *)
  w_dur   : nat -> Z;    (* script: duration of the n-th bus transaction *)
  w_resp  : nat -> Z;    (* script: answer of the bus to the n-th transaction *)
  w_n     : nat;         (* bus transactions so far *)
  w_junk  : list Z;      (* contents of an uninitialised stack buffer *)
  w_probes : list Probe  (* zero-length probes sent, oldest first *)
}.

Record State := mkState {
  obj   : I2C_24LC1025;
  env   : World;
  calls : list Call      (* block transfers issued, oldest first *)
}.

(**  I2C buffer needs max 2 bytes for EEPROM address. *)
Definition I2C_BUFFERSIZE (w : World) : Z := if w_esp w then 128 else 30.

(** *** The device behind the bus

    The 24LC1025 is two banks of 0x10000 cells; bit 2 of the control byte
    selects the bank and two address bytes select the cell.  A page write
    stores its bytes under a pointer that rolls over inside the 128-byte
    page; a sequential read delivers cells under a pointer that rolls over
    inside the bank.  This rolling over is what the page alignment of
    [_pageBlock] and the bank split of [readBlock] are written against. *)

Definition bank (ctrl : Z) : Z := if Z.testbit ctrl 2 then 65536 else 0.

Definition upd (m : Z -> Z) (k v : Z) : Z -> Z :=
  fun a => if a =? k then v else m a.

Fixpoint page_store (m : Z -> Z) (page off : Z) (data : list Z) : Z -> Z :=
  match data with
  | [] => m
  | b :: tl => page_store (upd m (page + off mod 128) b) page (off + 1) tl
  end.

Fixpoint seq_read (m : Z -> Z) (base ptr : Z) (n : nat) : list Z :=
  match n with
  | O => []
  | S k => m (base + ptr mod 65536) :: seq_read m base (ptr + 1) k
  end.

(** A bus transaction takes at least one microsecond and less than 2^31. *)
Definition tick (w : World) : Z :=
  Z.max 1 (Z.min 2147483647 (w_dur w (w_n w))).

Definition advance (w : World) : World :=
  mkWorld (w_esp w) (w_mem w) (w_ptr w) (w_now w + tick w) (w_dur w)
          (w_resp w) (S (w_n w)) (w_junk w) (w_probes w).

(** The status [endTransmission] reports for the transaction about to run. *)
Definition status (w : World) : Z := u8 (w_resp w (w_n w)).

(** What an acknowledged transmission of [payload] does to the device. *)
Definition accept (w : World) (ctrl : Z) (payload : list Z) : World :=
  match payload with
  | hi :: lo :: data =>
      let memAddr := hi * 256 + lo in
      mkWorld (w_esp w)
              (page_store (w_mem w) (bank ctrl + memAddr / 128 * 128)
                          (memAddr mod 128) data)
              memAddr (w_now w) (w_dur w) (w_resp w) (w_n w) (w_junk w)
              (w_probes w)
  | _ => w
  end.

(** ** The monad *)

Definition M (A : Type) : Type := State -> option (A * State).

Definition ret {A} (a : A) : M A := fun s => Some (a, s).

Definition bind {A B} (c : M A) (k : A -> M B) : M B :=
  fun s => match c s with
           | Some (a, s') => k a s'
           | None => None
           end.

(** Out of fuel: the loop did not finish. *)
Definition stuck {A} : M A := fun _ => None.

Notation "x <- c ;; k" := (bind c (fun x => k))
  (at level 61, c at next level, right associativity).
Notation "c ;;; k" := (bind c (fun _ => k))
  (at level 61, right associativity).

Definition field {A} (f : I2C_24LC1025 -> A) : M A :=
  fun s => Some (f (obj s), s).

Definition world {A} (f : World -> A) : M A :=
  fun s => Some (f (env s), s).

Definition set_obj (f : I2C_24LC1025 -> I2C_24LC1025) : M unit :=
  fun s => Some (tt, mkState (f (obj s)) (env s) (calls s)).

Definition set_env (f : World -> World) : M unit :=
  fun s => Some (tt, mkState (obj s) (f (env s)) (calls s)).

Definition record (c : Call) : M unit :=
  fun s => Some (tt, mkState (obj s) (env s) (calls s ++ [c])).

Definition set_actualAddress (v : Z) (o : I2C_24LC1025) : I2C_24LC1025 :=
  mkDriver (_deviceAddress o) v (_lastWrite o) (_deviceSize o) (_pageSize o)
           (_extraTWR o).

Definition set_lastWrite (v : Z) (o : I2C_24LC1025) : I2C_24LC1025 :=
  mkDriver (_deviceAddress o) (_actualAddress o) v (_deviceSize o)
           (_pageSize o) (_extraTWR o).

(** ** The bus and timing primitives the driver consumes

    Time passes in bus transactions and in [delayMicroseconds] only:
    [yield()] is taken to return at once, and its calls are marked in
    comments. *)

(** [micros()] *)
Definition micros : M Z := world (fun w => u32 (w_now w)).

(** [delayMicroseconds(us)] *)
Definition delayMicroseconds (us : Z) : M unit :=
  set_env (fun w => mkWorld (w_esp w) (w_mem w) (w_ptr w) (w_now w + us)
                            (w_dur w) (w_resp w) (w_n w) (w_junk w)
                            (w_probes w)).

(** [_wire->beginTransmission(ctrl); _wire->endTransmission()] *)
Definition wire_probe (ctrl : Z) : M Z :=
  t <- micros ;;
  x <- world status ;;
  set_env (fun w =>
    advance (mkWorld (w_esp w) (w_mem w) (w_ptr w) (w_now w) (w_dur w)
                     (w_resp w) (w_n w) (w_junk w)
                     (w_probes w ++ [mkProbe t ctrl x]))) ;;;
  ret x.

(** [_wire->endTransmission()] of an open transmission to [ctrl] holding
    [payload]; a transmission that is not acknowledged stores nothing. *)
Definition wire_endTransmission (ctrl : Z) (payload : list Z) : M Z :=
  x <- world status ;;
  set_env (fun w => advance (if x =? 0 then accept w ctrl payload else w)) ;;;
  ret x.

(** [_wire->requestFrom(ctrl, n)] followed by the [_wire->read()] of the
    bytes it reports: the script may cut the delivery short. *)
Definition wire_requestFrom (ctrl n : Z) : M (list Z) :=
  r <- world (fun w => w_resp w (w_n w)) ;;
  let k := Z.to_nat (n - Z.min n (Z.abs r)) in
  got <- world (fun w => seq_read (w_mem w) (bank ctrl) (w_ptr w) k) ;;
  set_env (fun w =>
    advance (mkWorld (w_esp w) (w_mem w) ((w_ptr w + Z.of_nat k) mod 65536)
                     (w_now w) (w_dur w) (w_resp w) (w_n w) (w_junk w)
                     (w_probes w))) ;;;
  ret got.

(** ** PRIVATE *)

Definition waitTime (o : I2C_24LC1025) : Z :=
  u32 (I2C_WRITEDELAY + u8 (_extraTWR o) * 1000).

Fixpoint waitEEReady_loop (fuel : nat) (waitT : Z) : M unit :=
  match fuel with
  | O => stuck
  | S fuel' =>
      t <- micros ;;
      lw <- field _lastWrite ;;
      if u32 (t - lw) <=? waitT then
        dev <- field _deviceAddress ;;
        x <- wire_probe dev ;;
        if x =? 0 then ret tt
        else (* yield(); *) waitEEReady_loop fuel' waitT
      else ret tt
  end.

(** The fuel of the two polling loops: a probe takes at least a microsecond,
    so a loop that starts inside the deadline reads the clock at most
    [waitT + 2] times before it is past it. *)
Definition _waitEEReady : M unit :=
  waitT <- field waitTime ;;
  waitEEReady_loop (Z.to_nat (waitT + 2)) waitT.

Fixpoint beginTransmission_loop (fuel : nat) (waitT : Z) : M unit :=
  match fuel with
  | O => stuck
  | S fuel' =>
      t <- micros ;;
      lw <- field _lastWrite ;;
      if u32 (t - lw) <=? waitT then
        actual <- field _actualAddress ;;
        x <- wire_probe actual ;;
        if x =? 0 then ret tt
        else (* yield(); *)
          delayMicroseconds 50 ;;;
          beginTransmission_loop fuel' waitT
      else ret tt
  end.

(** Returns the bytes queued in the transmission it leaves open towards
    [_actualAddress]: highByte, lowByte of the in-bank address. *)
Definition _beginTransmission (memoryAddress : Z) : M (list Z) :=
  dev <- field _deviceAddress ;;
  set_obj (set_actualAddress
             (if 65536 <=? memoryAddress then Z.lor dev 4 else dev)) ;;;
  waitT <- field waitTime ;;
  beginTransmission_loop (Z.to_nat (waitT + 2)) waitT ;;;
  let memAddr := Z.land memoryAddress 65535 in
  ret [Z.land (Z.shiftr memAddr 8) 255; Z.land memAddr 255].

(**  pre: length <= this->_pageSize  && length <= I2C_BUFFERSIZE;
     returns 0 = OK otherwise error *)
Definition _WriteBlock (memoryAddress : Z) (buffer : list Z) (length : Z)
  : M Z :=
  _waitEEReady ;;;
  hdr <- _beginTransmission memoryAddress ;;
  actual <- field _actualAddress ;;
  let data := firstn (Z.to_nat length) buffer in
  rv <- wire_endTransmission actual (hdr ++ data) ;;
  t <- micros ;;
  set_obj (set_lastWrite t) ;;;
  (* yield(); *)
  record (CallWrite memoryAddress length data rv) ;;;
  ret rv.

(**  pre: buffer is large enough to hold length bytes
     returns bytes read, and the buffer with the bytes read stored at its
     start *)
Definition _ReadBlock (memoryAddress : Z) (buffer : list Z) (length : Z)
  : M (Z * list Z) :=
  _waitEEReady ;;;
  hdr <- _beginTransmission memoryAddress ;;
  actual <- field _actualAddress ;;
  rv <- wire_endTransmission actual hdr ;;
  if negb (rv =? 0) then
    record (CallRead memoryAddress length []) ;;;
    ret (0, buffer)
  else
    got <- wire_requestFrom actual length ;;
    let readBytes := u8 (Z.of_nat (List.length got)) in
    record (CallRead memoryAddress length got) ;;;
    ret (readBytes, got ++ skipn (List.length got) buffer).

Fixpoint pageBlock_loop (fuel : nat) (addr : Z) (buffer : list Z) (len : Z)
  (incrBuffer : bool) : M Z :=
  if 0 <? len then
    match fuel with
    | O => stuck
    | S fuel' =>
        pageSize <- field _pageSize ;;
        bufsize <- world I2C_BUFFERSIZE ;;
        let bytesUntilPageBoundary := u8 (u32 (pageSize - addr mod pageSize)) in
        let cnt := u8 bufsize in
        let cnt := if len <? cnt then u8 len else cnt in
        let cnt := if bytesUntilPageBoundary <? cnt
                   then bytesUntilPageBoundary else cnt in
        rv <- _WriteBlock addr buffer cnt ;;
        if negb (rv =? 0) then ret rv
        else
          pageBlock_loop fuel' (u32 (addr + cnt))
            (if incrBuffer then skipn (Z.to_nat cnt) buffer else buffer)
            (u16 (len - cnt)) incrBuffer
    end
  else ret 0.

(**  _pageBlock aligns buffer to page boundaries for writing.
     and to I2C buffer size
     returns 0 = OK otherwise error.
     Fuel: every pass of the loop writes at least one byte. *)
Definition _pageBlock (memoryAddress : Z) (buffer : list Z) (length : Z)
  (incrBuffer : bool) : M Z :=
  pageBlock_loop (Z.to_nat length) memoryAddress buffer length incrBuffer.

(** ** PUBLIC FUNCTIONS *)

(** The constructor; the fields it leaves to the header's initialisers
    start at zero. *)
Definition construct (deviceAddress : Z) : I2C_24LC1025 :=
  mkDriver (u8 deviceAddress) 0 0 I2C_DEVICESIZE_24LC1025
           I2C_PAGESIZE_24LC1025 0.

Definition isConnected : M bool :=
  dev <- field _deviceAddress ;;
  x <- wire_probe dev ;;
  ret (x =? 0).

Definition begin : M bool :=
  set_obj (set_lastWrite 0) ;;;
  isConnected.

(** *** WRITE SECTION *)

(**  returns I2C status, 0 = OK *)
Definition writeByte (memoryAddress data : Z) : M Z :=
  _WriteBlock memoryAddress [data] 1.

(**  returns I2C status, 0 = OK.  [_pageBlock] takes its length as a
     uint16_t. *)
Definition setBlock (memoryAddress data length : Z) : M Z :=
  bufsize <- world I2C_BUFFERSIZE ;;
  let buffer := repeat data (Z.to_nat bufsize) in
  _pageBlock memoryAddress buffer (u16 length) false.

(**  returns I2C status, 0 = OK *)
Definition writeBlock (memoryAddress : Z) (buffer : list Z) (length : Z)
  : M Z :=
  _pageBlock memoryAddress buffer (u16 length) true.

(** *** READ SECTION *)

(** A local buffer of [n] bytes that the code does not initialise. *)
Definition uninitialised (n : Z) : M (list Z) :=
  world (fun w => firstn (Z.to_nat n) (w_junk w ++ repeat 0 (Z.to_nat n))).

(**  returns the value stored in memoryAddress *)
Definition readByte (memoryAddress : Z) : M Z :=
  rdata <- uninitialised 1 ;;
  r <- _ReadBlock memoryAddress rdata 1 ;;
  ret (hd 0 (snd r)).

Fixpoint readBlock_loop (fuel : nat) (addr : Z) (buffer : list Z)
  (len rv : Z) : M (Z * list Z) :=
  if 0 <? len then
    match fuel with
    | O => stuck
    | S fuel' =>
        bufsize <- world I2C_BUFFERSIZE ;;
        let cnt := u8 bufsize in
        let cnt := if len <? cnt then u8 len else cnt in
        r <- _ReadBlock addr buffer cnt ;;
        let rv := u32 (rv + fst r) in
        (* yield(); *)
        r' <- readBlock_loop fuel' (u32 (addr + cnt))
                (skipn (Z.to_nat cnt) (snd r)) (u32 (len - cnt)) rv ;;
        ret (fst r', firstn (Z.to_nat cnt) (snd r) ++ snd r')
    end
  else ret (rv, buffer).

(** [readBlock] calls itself for the two halves of a request that spans
    the bank border; [depth] bounds the nesting of those calls.  The fuel
    of the loop is the length: every pass asks for at least one byte. *)
Fixpoint readBlock_rec (depth : nat) (memoryAddress : Z) (buffer : list Z)
  (length : Z) : M (Z * list Z) :=
  let addr := memoryAddress in
  let len := length in
  if (addr <? 65536) && (65536 <? u32 (addr + len)) then
    match depth with
    | O => stuck
    | S depth' =>
        let sublen := u32 (65536 - addr) in
        r1 <- readBlock_rec depth' addr buffer sublen ;;
        r2 <- readBlock_rec depth' 65536
                (skipn (Z.to_nat sublen) (snd r1)) (u32 (len - sublen)) ;;
        ret (u32 (fst r1 + fst r2),
             firstn (Z.to_nat sublen) (snd r1) ++ snd r2)
    end
  else readBlock_loop (Z.to_nat len) addr buffer len 0.

(**  returns bytes read, and the buffer that holds them. *)
Definition readBlock (memoryAddress : Z) (buffer : list Z) (length : Z)
  : M (Z * list Z) :=
  readBlock_rec 1 memoryAddress buffer length.

(** *** UPDATE SECTION *)

Fixpoint memcmp (a b : list Z) (n : nat) : Z :=
  match n with
  | O => 0
  | S k =>
      let x := hd 0 a in
      let y := hd 0 b in
      if x =? y then memcmp (tl a) (tl b) k else x - y
  end.

(**  returns 0 == OK *)
Definition updateByte (memoryAddress data : Z) : M Z :=
  cur <- readByte memoryAddress ;;
  if data =? cur then ret 0 else writeByte memoryAddress data.

Fixpoint updateBlock_loop (fuel : nat) (addr : Z) (buffer : list Z)
  (len rv : Z) : M Z :=
  if 0 <? len then
    match fuel with
    | O => stuck
    | S fuel' =>
        bufsize <- world I2C_BUFFERSIZE ;;
        buf <- uninitialised bufsize ;;
        let cnt := u8 bufsize in
        let cnt := if len <? cnt then u8 len else cnt in
        r <- _ReadBlock addr buf cnt ;;
        let rv := u32 (rv + fst r) in
        (if negb (memcmp buffer (snd r) (Z.to_nat cnt) =? 0)
         then _pageBlock addr buffer cnt true ;;; ret tt
         else ret tt) ;;;
        (* yield(); *)
        updateBlock_loop fuel' (u32 (addr + cnt))
          (skipn (Z.to_nat cnt) buffer) (u32 (len - cnt)) rv
    end
  else ret rv.

(**  returns bytes written. *)
Definition updateBlock (memoryAddress : Z) (buffer : list Z) (length : Z)
  : M Z :=
  updateBlock_loop (Z.to_nat length) memoryAddress buffer length 0.

(** *** VERIFY SECTION *)

(**  return false if write or verify failed. *)
Definition writeByteVerify (memoryAddress value : Z) : M bool :=
  rv <- writeByte memoryAddress value ;;
  if negb (rv =? 0) then ret false
  else
    data <- readByte memoryAddress ;;
    ret (data =? value).

(**  return false if write or verify failed. *)
Definition writeBlockVerify (memoryAddress : Z) (buffer : list Z)
  (length : Z) : M bool :=
  rv <- writeBlock memoryAddress buffer length ;;
  if negb (rv =? 0) then ret false
  else
    data <- uninitialised length ;;
    r <- readBlock memoryAddress data length ;;
    if negb (fst r =? length) then ret false
    else ret (memcmp (snd r) buffer (Z.to_nat length) =? 0).

(**  return false if write or verify failed. *)
Definition setBlockVerify (memoryAddress value length : Z) : M bool :=
  rv <- setBlock memoryAddress value length ;;
  if negb (rv =? 0) then ret false
  else
    data <- uninitialised length ;;
    r <- readBlock memoryAddress data length ;;
    if negb (fst r =? length) then ret false
    else ret (forallb (fun d => d =? value)
                      (firstn (Z.to_nat length) (snd r))).

(**  return false if write or verify failed. *)
Definition updateByteVerify (memoryAddress value : Z) : M bool :=
  rv <- updateByte memoryAddress value ;;
  if negb (rv =? 0) then ret false
  else
    data <- readByte memoryAddress ;;
    ret (data =? value).

(**  return false if write or verify failed. *)
Definition updateBlockVerify (memoryAddress : Z) (buffer : list Z)
  (length : Z) : M bool :=
  n <- updateBlock memoryAddress buffer length ;;
  if negb (n =? length) then ret false
  else
    data <- uninitialised length ;;
    r <- readBlock memoryAddress data length ;;
    if negb (fst r =? length) then ret false
    else ret (memcmp (snd r) buffer (Z.to_nat length) =? 0).

(** ** A concrete bench: a fresh driver on a bus that always answers *)

Definition pattern (a : Z) : Z := (a * 7 + a / 65536 * 3 + 1) mod 251.

Definition bench_world (esp : bool) (mem : Z -> Z) (resp : nat -> Z) : World :=
  mkWorld esp mem 0 1000000 (fun _ => 100) resp 0 [] [].

Definition bench (esp : bool) (mem : Z -> Z) (resp : nat -> Z) : State :=
  mkState (construct 80) (bench_world esp mem resp) [].

Definition run {A B} (c : M A) (s : State) (f : A -> State -> B) : option B :=
  match c s with
  | Some (a, s') => Some (f a s')
  | None => None
  end.

(** ** Vocabulary of the statements *)

(** Microseconds since the last write, as the driver measures them. *)
Definition elapsed (s : State) : Z :=
  u32 (u32 (w_now (env s)) - _lastWrite (obj s)).

(** The state once a zero-length probe to [ctrl] has been answered. *)
Definition after_probe (ctrl : Z) (s : State) : State :=
  let w := env s in
  mkState (obj s)
    (advance (mkWorld (w_esp w) (w_mem w) (w_ptr w) (w_now w) (w_dur w)
                      (w_resp w) (w_n w) (w_junk w)
                      (w_probes w ++ [mkProbe (u32 (w_now w)) ctrl (status w)])))
    (calls s).

Definition paused (us : Z) (s : State) : State :=
  let w := env s in
  mkState (obj s)
    (mkWorld (w_esp w) (w_mem w) (w_ptr w) (w_now w + us) (w_dur w)
             (w_resp w) (w_n w) (w_junk w) (w_probes w))
    (calls s).

(** A polling loop with deadline [W]: it stops at the first clock reading
    past the deadline or at the first acknowledged probe. *)
Inductive polling (ctrl W : Z) (nxt : State -> State) : State -> State -> Prop :=
| poll_expired s :
    W < elapsed s -> polling ctrl W nxt s s
| poll_ack s :
    elapsed s <= W -> status (env s) = 0 ->
    polling ctrl W nxt s (after_probe ctrl s)
| poll_nack s s' :
    elapsed s <= W -> status (env s) <> 0 ->
    polling ctrl W nxt (nxt (after_probe ctrl s)) s' ->
    polling ctrl W nxt s s'.

(** What no operation of the driver changes: the configuration of the
    driver and the scripts of the world. *)
Record same_setup (s s' : State) : Prop := mkSetup {
  su_dev  : _deviceAddress (obj s') = _deviceAddress (obj s);
  su_size : _deviceSize (obj s') = _deviceSize (obj s);
  su_page : _pageSize (obj s') = _pageSize (obj s);
  su_twr  : _extraTWR (obj s') = _extraTWR (obj s);
  su_esp  : w_esp (env s') = w_esp (env s);
  su_dur  : w_dur (env s') = w_dur (env s);
  su_resp : w_resp (env s') = w_resp (env s);
  su_junk : w_junk (env s') = w_junk (env s)
}.

(** What polling leaves alone besides: the cells and the block trace. *)
Record idle (s s' : State) : Prop := mkIdle {
  idle_setup : same_setup s s';
  idle_last  : _lastWrite (obj s') = _lastWrite (obj s);
  idle_act   : _actualAddress (obj s') = _actualAddress (obj s);
  idle_mem   : w_mem (env s') = w_mem (env s);
  idle_calls : calls s' = calls s
}.

(** The driver as its constructor leaves it. *)
Definition constructed (s : State) : Prop :=
  _pageSize (obj s) = I2C_PAGESIZE_24LC1025.

(** *** Resolution of a logical address *)

Definition control_byte (dev memoryAddress : Z) : Z :=
  if 65536 <=? memoryAddress then Z.lor dev 4 else dev.

(** The cell a logical address designates, through the control byte and the
    two address bytes the driver sends for it. *)
Definition cell (dev a : Z) : Z := bank (control_byte dev a) + a mod 65536.

(** The cells after the bytes [data] are stored one by one from logical
    address [a] on. *)
Fixpoint store (dev : Z) (m : Z -> Z) (a : Z) (data : list Z) : Z -> Z :=
  match data with
  | [] => m
  | b :: tl => store dev (upd m (cell dev a) b) (u32 (a + 1)) tl
  end.

(** The two address bytes sent for a logical address. *)
Definition address_bytes (memoryAddress : Z) : list Z :=
  let memAddr := Z.land memoryAddress 65535 in
  [Z.land (Z.shiftr memAddr 8) 255; Z.land memAddr 255].

(** The state once the control byte for [a] has been chosen. *)
Definition resolved (a : Z) (s : State) : State :=
  mkState (set_actualAddress (control_byte (_deviceAddress (obj s)) a) (obj s))
          (env s) (calls s).

(** The cells a sequential read of [n] bytes from logical address [a]
    should deliver. *)
Fixpoint content (dev : Z) (m : Z -> Z) (a : Z) (n : nat) : list Z :=
  match n with
  | O => []
  | S k => m (cell dev a) :: content dev m (u32 (a + 1)) k
  end.

(** *** Traces of block transfers *)

Definition is_write (c : Call) : bool :=
  match c with CallWrite _ _ _ _ => true | CallRead _ _ _ => false end.

Definition writes (l : list Call) : list Call := filter is_write l.

Definition call_addr (c : Call) : Z :=
  match c with CallWrite a _ _ _ => a | CallRead a _ _ => a end.

Definition call_cnt (c : Call) : Z :=
  match c with CallWrite _ n _ _ => n | CallRead _ n _ => n end.

Definition call_bytes (c : Call) : list Z :=
  match c with CallWrite _ _ d _ => d | CallRead _ _ g => g end.

Definition call_status (c : Call) : Z :=
  match c with CallWrite _ _ _ rv => rv | CallRead _ _ _ => 0 end.

(** The chunks of [l] lie one after the other from [a] on and cover [n]
    bytes. *)
Fixpoint tiles (a n : Z) (l : list Call) : Prop :=
  match l with
  | [] => n = 0
  | c :: tl =>
      call_addr c = a /\ 0 < call_cnt c <= n /\
      tiles (u32 (a + call_cnt c)) (n - call_cnt c) tl
  end.

(** No byte of the chunk lies on the other side of a multiple of [b] than
    its first byte. *)
Definition within (b : Z) (c : Call) : Prop :=
  call_addr c / b = (call_addr c + call_cnt c - 1) / b.

(** Bytes requested by the chunks of a trace. *)
Definition sent (l : list Call) : Z :=
  fold_right (fun c acc => call_cnt c + acc) 0 l.

(** Bytes delivered by the chunks of a trace. *)
Definition delivered (l : list Call) : Z :=
  fold_right (fun c acc => Z.of_nat (length (call_bytes c)) + acc) 0 l.

(** The bytes of the chunks of a trace, in order. *)
Definition payload (l : list Call) : list Z := flat_map call_bytes l.

(** The cells after the acknowledged writes of a trace. *)
Definition written (dev : Z) (m : Z -> Z) (l : list Call) : Z -> Z :=
  fold_left (fun m c =>
               match c with
               | CallWrite a _ d rv => if rv =? 0 then store dev m a d else m
               | CallRead _ _ _ => m
               end) l m.

(** The size [_pageBlock] gives the chunk at [addr] when [len] bytes are
    left: the lines that compute [cnt] in its loop. *)
Definition chunk (pageSize bufsize addr len : Z) : Z :=
  let bytesUntilPageBoundary := u8 (u32 (pageSize - addr mod pageSize)) in
  let cnt := u8 bufsize in
  let cnt := if len <? cnt then u8 len else cnt in
  let cnt := if bytesUntilPageBoundary <? cnt
             then bytesUntilPageBoundary else cnt in
  cnt.

(** A run of the chunked write loop: the trace it leaves, the status it
    returns and the cells it leaves. *)
Inductive write_run (dev bufsize : Z) (incr : bool)
  : Z -> list Z -> Z -> (Z -> Z) -> list Call -> Z -> (Z -> Z) -> Prop :=
| run_done a buf len m :
    len <= 0 -> write_run dev bufsize incr a buf len m [] 0 m
| run_fail a buf len m rv :
    0 < len -> rv <> 0 ->
    write_run dev bufsize incr a buf len m
      [CallWrite a (chunk 128 bufsize a len)
         (firstn (Z.to_nat (chunk 128 bufsize a len)) buf) rv] rv m
| run_step a buf len m l rv m' :
    0 < len ->
    write_run dev bufsize incr
      (u32 (a + chunk 128 bufsize a len))
      (if incr then skipn (Z.to_nat (chunk 128 bufsize a len)) buf else buf)
      (len - chunk 128 bufsize a len)
      (store dev m a (firstn (Z.to_nat (chunk 128 bufsize a len)) buf))
      l rv m' ->
    write_run dev bufsize incr a buf len m
      (CallWrite a (chunk 128 bufsize a len)
         (firstn (Z.to_nat (chunk 128 bufsize a len)) buf) 0 :: l) rv m'.

(** The chunked write stops at its first failure: the trace [s'] adds to
    that of [s] holds writes only, all acknowledged but possibly the last,
    whose status is then the result; the cells are those the acknowledged
    chunks left. *)
Definition stops_at_first_failure (s : State) (rv : Z) (s' : State) : Prop :=
  exists l,
    calls s' = calls s ++ l /\
    Forall (fun c => is_write c = true) l /\
    (rv = 0 <-> Forall (fun c => call_status c = 0) l) /\
    (rv <> 0 ->
     exists init last, l = init ++ [last] /\
       Forall (fun c => call_status c = 0) init /\ call_status last = rv) /\
    w_mem (env s') = written (_deviceAddress (obj s)) (w_mem (env s)) l.

(** The size the read loops give the chunk when [len] bytes are left: the
    lines that compute [cnt] in [readBlock] and [updateBlock]. *)
Definition read_cnt (bufsize len : Z) : Z :=
  let cnt := u8 bufsize in
  let cnt := if len <? cnt then u8 len else cnt in
  cnt.

(** One pass of a chunk loop over [n] bytes from [a] on: every chunk starts
    where the one before ended and is as long as the buffer allows. *)
Fixpoint chunked (bs a n : Z) (l : list Call) : Prop :=
  match l with
  | [] => n = 0
  | c :: tl =>
      0 < n /\ call_addr c = a /\ call_cnt c = Z.min bs n /\
      chunked bs (u32 (a + call_cnt c)) (n - call_cnt c) tl
  end.

(** The chunk lies on one side of the bank border. *)
Definition one_side (c : Call) : Prop :=
  call_addr c + call_cnt c <= 65536 \/ 65536 <= call_addr c.

(** A low-level read of the cells [m]: at most the bytes asked for, taken
    from the bank of its first address, with the pointer rolling over
    inside that bank. *)
Definition read_of (dev : Z) (m : Z -> Z) (c : Call) : Prop :=
  is_write c = false /\
  Z.of_nat (length (call_bytes c)) <= call_cnt c /\
  call_bytes c =
    seq_read m (bank (control_byte dev (call_addr c)))
             (call_addr c mod 65536) (length (call_bytes c)).

Definition reads (l : list Call) : list Call :=
  filter (fun c => negb (is_write c)) l.

(** The chunk delivered every byte it was asked for. *)
Definition complete (c : Call) : Prop :=
  Z.of_nat (length (call_bytes c)) = call_cnt c.

(** The local buffer of [updateBlock] before it is read into. *)
Definition fresh (bs : Z) (junk : list Z) : list Z :=
  firstn (Z.to_nat bs) (junk ++ repeat 0 (Z.to_nat bs)).

(** A run of the update loop: for each chunk a read into the local buffer,
    then, when the comparison finds a difference, a chunked write. *)
Inductive update_run (dev bs : Z) (junk : list Z)
  : Z -> list Z -> Z -> (Z -> Z) -> list Call -> (Z -> Z) -> Prop :=
| up_done a buffer len m :
    len <= 0 -> update_run dev bs junk a buffer len m [] m
| up_same a buffer len m got l m' :
    0 < len ->
    read_of dev m (CallRead a (Z.min bs len) got) ->
    memcmp buffer (got ++ skipn (length got) (fresh bs junk))
           (Z.to_nat (Z.min bs len)) = 0 ->
    update_run dev bs junk (u32 (a + Z.min bs len))
               (skipn (Z.to_nat (Z.min bs len)) buffer)
               (len - Z.min bs len) m l m' ->
    update_run dev bs junk a buffer len m
               (CallRead a (Z.min bs len) got :: l) m'
| up_diff a buffer len m got wl rv m1 l m' :
    0 < len ->
    read_of dev m (CallRead a (Z.min bs len) got) ->
    memcmp buffer (got ++ skipn (length got) (fresh bs junk))
           (Z.to_nat (Z.min bs len)) <> 0 ->
    write_run dev bs true a buffer (Z.min bs len) m wl rv m1 ->
    update_run dev bs junk (u32 (a + Z.min bs len))
               (skipn (Z.to_nat (Z.min bs len)) buffer)
               (len - Z.min bs len) m1 l m' ->
    update_run dev bs junk a buffer len m
               (CallRead a (Z.min bs len) got :: wl ++ l) m'.

(** The read-back and comparison that end [writeBlockVerify] and
    [updateBlockVerify]. *)
Definition read_back (memoryAddress : Z) (buffer : list Z) (length : Z)
  : M bool :=
  data <- uninitialised length ;;
  r <- readBlock memoryAddress data length ;;
  if negb (fst r =? length) then ret false
  else ret (memcmp (snd r) buffer (Z.to_nat length) =? 0).

(** The value of a one-byte local that the code does not initialise. *)
Definition junk_byte (w : World) : Z := hd 0 (w_junk w ++ [0]).

(** The low-level reads [readBlock] issues for [len] bytes from [a] on: two
    passes of the chunk loop when its test finds the request spanning the
    bank border, one pass otherwise. *)
Definition read_passes (bs a len : Z) (l : list Call) : Prop :=
  if (a <? 65536) && (65536 <? u32 (a + len)) then
    exists l1 l2, l = l1 ++ l2 /\
      chunked bs a (65536 - a) l1 /\
      chunked bs 65536 (a + len - 65536) l2
  else chunked bs a len l.

(** * Proofs *)

(** ** Fixed-width arithmetic *)

Lemma u8_small x : 0 <= x < 256 -> u8 x = x.
Proof. intros; unfold u8; now apply Z.mod_small. Qed.

Lemma u16_small x : 0 <= x < 65536 -> u16 x = x.
Proof. intros; unfold u16; now apply Z.mod_small. Qed.

Lemma u32_small x : 0 <= x < 4294967296 -> u32 x = x.
Proof. intros; unfold u32; now apply Z.mod_small. Qed.

Lemma u8_range x : 0 <= u8 x < 256.
Proof. unfold u8; apply Z.mod_pos_bound; lia. Qed.

Lemma u32_range x : 0 <= u32 x < 4294967296.
Proof. unfold u32; apply Z.mod_pos_bound; lia. Qed.

Lemma waitTime_range o : 5000 <= waitTime o <= 260000.
Proof.
  unfold waitTime, I2C_WRITEDELAY.
  pose proof (u8_range (_extraTWR o)).
  rewrite u32_small; lia.
Qed.

Lemma tick_range w : 1 <= tick w <= 2147483647.
Proof. unfold tick; lia. Qed.

Lemma bufsize_cases w : I2C_BUFFERSIZE w = 30 \/ I2C_BUFFERSIZE w = 128.
Proof. unfold I2C_BUFFERSIZE; destruct (w_esp w); auto. Qed.

(** ** The relations between states *)

Lemma same_setup_refl s : same_setup s s.
Proof. now constructor. Qed.

Lemma same_setup_trans s1 s2 s3 :
  same_setup s1 s2 -> same_setup s2 s3 -> same_setup s1 s3.
Proof.
  intros [] []; constructor; congruence.
Qed.

Lemma idle_refl s : idle s s.
Proof. constructor; auto using same_setup_refl. Qed.

Lemma idle_trans s1 s2 s3 : idle s1 s2 -> idle s2 s3 -> idle s1 s3.
Proof.
  intros [] []; constructor; try congruence.
  eapply same_setup_trans; eauto.
Qed.

Lemma idle_after_probe c s : idle s (after_probe c s).
Proof. repeat constructor. Qed.

Lemma idle_paused us s : idle s (paused us s).
Proof. repeat constructor. Qed.

Create HintDb eeprom.

#[local] Hint Resolve same_setup_refl idle_refl idle_after_probe idle_paused
  : eeprom.

Lemma constructed_setup s s' :
  same_setup s s' -> constructed s -> constructed s'.
Proof. unfold constructed; intros [] ?; congruence. Qed.

(** ** The clock *)

Lemma elapsed_shift s s' d :
  _lastWrite (obj s') = _lastWrite (obj s) ->
  w_now (env s') = w_now (env s) + d ->
  0 <= d -> elapsed s + d < 4294967296 ->
  elapsed s' = elapsed s + d.
Proof.
  unfold elapsed, u32; intros Hl Hn Hd Hb.
  rewrite Hl, Hn.
  rewrite !Zminus_mod_idemp_l in *.
  replace (w_now (env s) + d - _lastWrite (obj s))
    with ((w_now (env s) - _lastWrite (obj s)) + d) by lia.
  rewrite <- Zplus_mod_idemp_l.
  apply Z.mod_small.
  pose proof (Z.mod_pos_bound (w_now (env s) - _lastWrite (obj s)) 4294967296).
  lia.
Qed.

Lemma elapsed_after_probe c s W :
  elapsed s <= W -> W <= 260000 ->
  elapsed (after_probe c s) = elapsed s + tick (env s).
Proof.
  intros; pose proof (tick_range (env s)).
  apply elapsed_shift; simpl; unfold tick in *; simpl; try lia; reflexivity.
Qed.

Lemma elapsed_paused c s W us :
  elapsed s <= W -> W <= 260000 -> 0 <= us <= 1000 ->
  elapsed (paused us (after_probe c s)) = elapsed s + (tick (env s) + us).
Proof.
  intros; pose proof (tick_range (env s)).
  apply elapsed_shift; simpl; unfold tick in *; simpl; try lia; reflexivity.
Qed.

(** ** The polling loops *)

Lemma wire_probe_eq c s :
  wire_probe c s = Some (status (env s), after_probe c s).
Proof. reflexivity. Qed.

Lemma waitEEReady_loop_S fuel W s :
  waitEEReady_loop (S fuel) W s =
  if elapsed s <=? W then
    if status (env s) =? 0 then Some (tt, after_probe (_deviceAddress (obj s)) s)
    else waitEEReady_loop fuel W (after_probe (_deviceAddress (obj s)) s)
  else Some (tt, s).
Proof.
  unfold elapsed; simpl; unfold bind, micros, field, world.
  destruct (_ <=? W); [|reflexivity].
  rewrite wire_probe_eq.
  destruct (_ =? 0); reflexivity.
Qed.

Lemma beginTransmission_loop_S fuel W s :
  beginTransmission_loop (S fuel) W s =
  if elapsed s <=? W then
    if status (env s) =? 0 then Some (tt, after_probe (_actualAddress (obj s)) s)
    else beginTransmission_loop fuel W
           (paused 50 (after_probe (_actualAddress (obj s)) s))
  else Some (tt, s).
Proof.
  unfold elapsed; simpl; unfold bind, micros, field, world.
  destruct (_ <=? W); [|reflexivity].
  rewrite wire_probe_eq.
  destruct (_ =? 0); reflexivity.
Qed.

Lemma waitEEReady_loop_polls fuel : forall W s,
  W <= 260000 -> W + 2 - elapsed s <= Z.of_nat fuel -> (0 < fuel)%nat ->
  exists s', waitEEReady_loop fuel W s = Some (tt, s') /\
             polling (_deviceAddress (obj s)) W (fun x => x) s s'.
Proof.
  induction fuel as [|fuel IH]; intros W s HW Hf Hpos; [lia|].
  rewrite waitEEReady_loop_S.
  destruct (Z.leb_spec (elapsed s) W) as [Hle|Hgt].
  - destruct (Z.eqb_spec (status (env s)) 0) as [Hack|Hnack].
    + eexists; split; [reflexivity|]. now apply poll_ack.
    + pose proof (elapsed_after_probe (_deviceAddress (obj s)) s W Hle HW) as He.
      pose proof (tick_range (env s)).
      destruct (IH W (after_probe (_deviceAddress (obj s)) s)) as (s' & Hrun & Hp);
        try lia.
      exists s'; split; [exact Hrun|].
      eapply poll_nack; eauto.
  - eexists; split; [reflexivity|]. now apply poll_expired.
Qed.

Lemma beginTransmission_loop_polls fuel : forall W s,
  W <= 260000 -> W + 2 - elapsed s <= Z.of_nat fuel -> (0 < fuel)%nat ->
  exists s', beginTransmission_loop fuel W s = Some (tt, s') /\
             polling (_actualAddress (obj s)) W (paused 50) s s'.
Proof.
  induction fuel as [|fuel IH]; intros W s HW Hf Hpos; [lia|].
  rewrite beginTransmission_loop_S.
  destruct (Z.leb_spec (elapsed s) W) as [Hle|Hgt].
  - destruct (Z.eqb_spec (status (env s)) 0) as [Hack|Hnack].
    + eexists; split; [reflexivity|]. now apply poll_ack.
    + assert (He := elapsed_paused (_actualAddress (obj s)) s W 50 Hle HW).
      pose proof (tick_range (env s)).
      destruct (IH W (paused 50 (after_probe (_actualAddress (obj s)) s)))
        as (s' & Hrun & Hp); try lia.
      exists s'; split; [exact Hrun|].
      eapply poll_nack; eauto.
  - eexists; split; [reflexivity|]. now apply poll_expired.
Qed.

Lemma polling_idle c W nxt s s' :
  (forall x, idle x (nxt x)) -> polling c W nxt s s' -> idle s s'.
Proof.
  intros Hn; induction 1; auto with eeprom.
  eapply idle_trans; [|eassumption].
  eapply idle_trans; [apply idle_after_probe | apply Hn].
Qed.

Lemma waitEEReady_runs s :
  exists s', _waitEEReady s = Some (tt, s') /\
             polling (_deviceAddress (obj s)) (waitTime (obj s)) (fun x => x) s s'.
Proof.
  unfold _waitEEReady, bind, field.
  pose proof (waitTime_range (obj s)).
  pose proof (u32_range (u32 (w_now (env s)) - _lastWrite (obj s))).
  apply waitEEReady_loop_polls; unfold elapsed; lia.
Qed.

Lemma waitEEReady_idle s :
  exists s', _waitEEReady s = Some (tt, s') /\ idle s s'.
Proof.
  destruct (waitEEReady_runs s) as (s' & H & Hp).
  exists s'; split; [exact H|].
  eapply polling_idle; [|exact Hp]. auto with eeprom.
Qed.

(** ** Address and bank resolution *)

Lemma address_bytes_eq a :
  exists hi lo, address_bytes a = [hi; lo] /\ hi * 256 + lo = a mod 65536 /\
                0 <= hi < 256 /\ 0 <= lo < 256.
Proof.
  unfold address_bytes.
  change 65535 with (Z.ones 16); change 255 with (Z.ones 8).
  rewrite !Z.land_ones, Z.shiftr_div_pow2 by lia.
  change (2 ^ 16) with 65536; change (2 ^ 8) with 256.
  pose proof (Z.mod_pos_bound a 65536).
  set (m := a mod 65536) in *.
  do 2 eexists; split; [reflexivity|].
  pose proof (Z.mod_pos_bound (m / 256) 256).
  pose proof (Z.mod_pos_bound m 256).
  assert (0 <= m / 256 < 256)
    by (split; [apply Z.div_pos | apply Z.div_lt_upper_bound]; lia).
  rewrite (Z.mod_small (m / 256)) by lia.
  pose proof (Z.div_mod m 256).
  lia.
Qed.

Lemma beginTransmission_unfold a s :
  _beginTransmission a s =
  match beginTransmission_loop (Z.to_nat (waitTime (obj s) + 2))
          (waitTime (obj s)) (resolved a s) with
  | Some (_, s') => Some (address_bytes a, s')
  | None => None
  end.
Proof. reflexivity. Qed.

Lemma beginTransmission_runs a s :
  exists s', _beginTransmission a s = Some (address_bytes a, s') /\
             polling (control_byte (_deviceAddress (obj s)) a)
                     (waitTime (obj s)) (paused 50) (resolved a s) s'.
Proof.
  rewrite beginTransmission_unfold.
  pose proof (waitTime_range (obj s)).
  pose proof (u32_range (u32 (w_now (env (resolved a s)))
                         - _lastWrite (obj (resolved a s)))).
  destruct (beginTransmission_loop_polls
              (Z.to_nat (waitTime (obj s) + 2)) (waitTime (obj s))
              (resolved a s))
    as (s' & Hrun & Hp); unfold elapsed; try lia.
  exists s'. rewrite Hrun. split; [reflexivity | exact Hp].
Qed.

Lemma idle_resolved_setup a s s' :
  idle (resolved a s) s' ->
  same_setup s s' /\ _lastWrite (obj s') = _lastWrite (obj s) /\
  _actualAddress (obj s') = control_byte (_deviceAddress (obj s)) a /\
  w_mem (env s') = w_mem (env s) /\ calls s' = calls s.
Proof.
  intros [[] ? ? ? ?]; simpl in *.
  repeat split; assumption.
Qed.

Lemma beginTransmission_spec a s :
  exists s', _beginTransmission a s = Some (address_bytes a, s') /\
    same_setup s s' /\ _lastWrite (obj s') = _lastWrite (obj s) /\
    _actualAddress (obj s') = control_byte (_deviceAddress (obj s)) a /\
    w_mem (env s') = w_mem (env s) /\ calls s' = calls s.
Proof.
  destruct (beginTransmission_runs a s) as (s' & H & Hp).
  exists s'; split; [exact H|].
  apply idle_resolved_setup.
  eapply polling_idle; [|exact Hp]. auto with eeprom.
Qed.

(** ** The device: transfers that stay inside a page, or inside a bank *)

Lemma same_page_arith a i :
  0 <= a -> 0 <= i -> a mod 128 + i < 128 ->
  (a + i) mod 65536 = a mod 65536 + i /\
  (65536 <=? a + i) = (65536 <=? a) /\
  (a mod 65536) / 128 * 128 + (a mod 65536) mod 128 = a mod 65536.
Proof.
  intros Ha Hi Hp.
  destruct (Z.leb_spec 65536 (a + i)), (Z.leb_spec 65536 a);
    repeat split; Z.div_mod_to_equations; lia.
Qed.

Lemma cell_same_page dev a i :
  0 <= a -> 0 <= i -> a mod 128 + i < 128 ->
  cell dev (a + i) =
  bank (control_byte dev a) + (a mod 65536) / 128 * 128
  + ((a mod 65536) mod 128 + i).
Proof.
  intros Ha Hi Hp.
  destruct (same_page_arith a i Ha Hi Hp) as (E1 & E2 & E3).
  unfold cell, control_byte. rewrite E1, E2. lia.
Qed.

Lemma page_store_linear dev : forall data m a P off,
  0 <= a -> a + Z.of_nat (length data) <= 4294967296 ->
  0 <= off -> off + Z.of_nat (length data) <= 128 ->
  (forall i, 0 <= i < Z.of_nat (length data) -> cell dev (a + i) = P + (off + i)) ->
  page_store m P off data = store dev m a data.
Proof.
  induction data as [|b tl IH]; intros m a P off Ha Hb Ho Hp Hc; [reflexivity|].
  simpl length in *. simpl.
  assert (E0 : cell dev a = P + off mod 128).
  { rewrite Z.mod_small by lia. specialize (Hc 0). rewrite !Z.add_0_r in Hc.
    apply Hc; lia. }
  rewrite <- E0.
  destruct tl as [|b' tl']; [reflexivity|].
  simpl length in *.
  rewrite (u32_small (a + 1)) by lia.
  apply IH; simpl length; try lia.
  intros i Hi. replace (a + 1 + i) with (a + (1 + i)) by lia.
  rewrite Hc by lia. lia.
Qed.

Lemma page_store_store dev m a data :
  0 <= a < 4294967296 -> a mod 128 + Z.of_nat (length data) <= 128 ->
  page_store m (bank (control_byte dev a) + (a mod 65536) / 128 * 128)
             ((a mod 65536) mod 128) data
  = store dev m a data.
Proof.
  intros Ha Hp.
  destruct data as [|b tl]; [reflexivity|].
  apply page_store_linear.
  - lia.
  - revert Hp; generalize (Z.of_nat (length (b :: tl))); intros.
    Z.div_mod_to_equations; lia.
  - apply Z.mod_pos_bound; lia.
  - revert Hp; generalize (Z.of_nat (length (b :: tl))); intros.
    Z.div_mod_to_equations; lia.
  - intros i Hi. apply cell_same_page; lia.
Qed.

Lemma seq_read_length m B : forall n ptr, length (seq_read m B ptr n) = n.
Proof. induction n; intros; simpl; auto. Qed.

Lemma content_length dev m : forall n a, length (content dev m a n) = n.
Proof. induction n; intros; simpl; auto. Qed.

Lemma seq_read_linear dev m B : forall n ptr a,
  0 <= a -> a + Z.of_nat n <= 4294967296 ->
  0 <= ptr -> ptr + Z.of_nat n <= 65536 ->
  (forall i, 0 <= i < Z.of_nat n -> cell dev (a + i) = B + (ptr + i)) ->
  seq_read m B ptr n = content dev m a n.
Proof.
  induction n as [|n IH]; intros ptr a Ha Hb Ho Hp Hc; [reflexivity|].
  simpl. f_equal.
  - rewrite Z.mod_small by lia. specialize (Hc 0). rewrite !Z.add_0_r in Hc.
    rewrite Hc by lia. reflexivity.
  - destruct n as [|n']; [reflexivity|].
    rewrite (u32_small (a + 1)) by lia.
    apply IH; try lia.
    intros i Hi. replace (a + 1 + i) with (a + (1 + i)) by lia.
    rewrite Hc by lia. lia.
Qed.

Lemma cell_same_bank dev a i :
  0 <= a -> 0 <= i -> a mod 65536 + i < 65536 ->
  cell dev (a + i) = bank (control_byte dev a) + (a mod 65536 + i).
Proof.
  intros Ha Hi Hp. unfold cell, control_byte.
  assert ((a + i) mod 65536 = a mod 65536 + i)
    by (Z.div_mod_to_equations; lia).
  assert ((65536 <=? a + i) = (65536 <=? a))
    by (destruct (Z.leb_spec 65536 (a + i)), (Z.leb_spec 65536 a);
        try reflexivity; Z.div_mod_to_equations; lia).
  rewrite H, H0. reflexivity.
Qed.

Lemma seq_read_content dev m a n :
  0 <= a < 4294967296 -> a mod 65536 + Z.of_nat n <= 65536 ->
  seq_read m (bank (control_byte dev a)) (a mod 65536) n = content dev m a n.
Proof.
  intros Ha Hp.
  destruct n as [|n]; [reflexivity|].
  apply seq_read_linear.
  - lia.
  - revert Hp; generalize (Z.of_nat (S n)); intros.
    Z.div_mod_to_equations; lia.
  - apply Z.mod_pos_bound; lia.
  - lia.
  - intros i Hi. apply cell_same_bank; lia.
Qed.

(** ** The two low-level block transfers *)

Lemma WriteBlock_spec a buf len s :
  exists rv s',
    _WriteBlock a buf len s = Some (rv, s') /\
    same_setup s s' /\
    calls s' = calls s ++ [CallWrite a len (firstn (Z.to_nat len) buf) rv] /\
    w_mem (env s') =
      if rv =? 0 then
        page_store (w_mem (env s))
          (bank (control_byte (_deviceAddress (obj s)) a)
           + (a mod 65536) / 128 * 128)
          ((a mod 65536) mod 128) (firstn (Z.to_nat len) buf)
      else w_mem (env s).
Proof.
  unfold _WriteBlock, bind.
  destruct (waitEEReady_idle s) as (s1 & -> & I1).
  destruct (beginTransmission_spec a s1) as (s2 & -> & S2 & L2 & A2 & M2 & C2).
  destruct (address_bytes_eq a) as (hi & lo & -> & Hm & _ & _).
  destruct I1 as [S1 L1 A1 M1 C1].
  unfold field, wire_endTransmission, bind, world, set_env, micros,
    set_obj, record, ret; simpl.
  do 2 eexists; split; [reflexivity|].
  pose proof (same_setup_trans _ _ _ S1 S2) as [].
  destruct (status (env s2) =? 0); simpl;
    rewrite C2, C1, ?A2, ?Hm, M2, M1, ?(su_dev _ _ S1);
    (split; [constructor; simpl; assumption | split; reflexivity]).
Qed.

Lemma ReadBlock_spec a buf len s :
  exists got s',
    _ReadBlock a buf len s =
      Some ((u8 (Z.of_nat (length got)), got ++ skipn (length got) buf), s') /\
    same_setup s s' /\
    w_mem (env s') = w_mem (env s) /\
    calls s' = calls s ++ [CallRead a len got] /\
    (length got <= Z.to_nat len)%nat /\
    got = seq_read (w_mem (env s))
            (bank (control_byte (_deviceAddress (obj s)) a))
            (a mod 65536) (length got).
Proof.
  unfold _ReadBlock, bind.
  destruct (waitEEReady_idle s) as (s1 & -> & I1).
  destruct (beginTransmission_spec a s1) as (s2 & -> & S2 & L2 & A2 & M2 & C2).
  destruct (address_bytes_eq a) as (hi & lo & -> & Hm & _ & _).
  destruct I1 as [S1 L1 A1 M1 C1].
  pose proof (same_setup_trans _ _ _ S1 S2) as [].
  unfold field, wire_endTransmission, bind, world, set_env, ret; simpl.
  destruct (status (env s2) =? 0) eqn:Hst; simpl.
  - unfold wire_requestFrom, bind, world, set_env, record, ret; simpl.
    exists (seq_read (w_mem (env s2)) (bank (_actualAddress (obj s2)))
              (hi * 256 + lo)
              (Z.to_nat (len - Z.min len
                                 (Z.abs (w_resp (env s2) (S (w_n (env s2)))))))).
    eexists; split; [reflexivity|]; simpl.
    rewrite seq_read_length, C2, C1, A2, Hm, M2, M1, (su_dev _ _ S1).
    repeat split; try assumption; try reflexivity.
    lia.
  - unfold record, ret; simpl.
    exists [], (mkState (obj s2) (advance (env s2))
                        (calls s2 ++ [CallRead a len []])); simpl.
    rewrite C2, C1, M2, M1.
    repeat split; try assumption; try reflexivity; lia.
Qed.

(** ** The chunked write loop *)

Lemma chunk_min bufsize a len :
  bufsize = 30 \/ bufsize = 128 -> 0 < len ->
  chunk 128 bufsize a len = Z.min (Z.min bufsize len) (128 - a mod 128).
Proof.
  intros Hb Hl. unfold chunk.
  pose proof (Z.mod_pos_bound a 128).
  rewrite (u32_small (128 - a mod 128)), (u8_small (128 - a mod 128)) by lia.
  rewrite (u8_small bufsize) by lia.
  destruct (Z.ltb_spec len bufsize).
  - rewrite u8_small by lia.
    destruct (Z.ltb_spec (128 - a mod 128) len); lia.
  - destruct (Z.ltb_spec (128 - a mod 128) bufsize); lia.
Qed.

Lemma chunk_bounds bufsize a len :
  bufsize = 30 \/ bufsize = 128 -> 0 < len ->
  0 < chunk 128 bufsize a len <= len /\
  chunk 128 bufsize a len <= bufsize /\
  chunk 128 bufsize a len <= 128 - a mod 128.
Proof.
  intros Hb Hl. rewrite chunk_min by assumption.
  pose proof (Z.mod_pos_bound a 128). lia.
Qed.

Lemma pageBlock_loop_S fuel a buf len incr s :
  0 < len ->
  pageBlock_loop (S fuel) a buf len incr s =
  let cnt := chunk (_pageSize (obj s)) (I2C_BUFFERSIZE (env s)) a len in
  match _WriteBlock a buf cnt s with
  | Some (rv, s1) =>
      if negb (rv =? 0) then Some (rv, s1)
      else pageBlock_loop fuel (u32 (a + cnt))
             (if incr then skipn (Z.to_nat cnt) buf else buf)
             (u16 (len - cnt)) incr s1
  | None => None
  end.
Proof.
  intros Hl. simpl.
  destruct (Z.ltb_spec 0 len); [|lia].
  unfold bind, field, world, chunk; simpl.
  destruct (_WriteBlock _ _ _ s) as [[rv s1]|]; [|reflexivity].
  destruct (negb (rv =? 0)); reflexivity.
Qed.

Lemma pageBlock_loop_done fuel a buf len incr s :
  len <= 0 -> pageBlock_loop fuel a buf len incr s = Some (0, s).
Proof.
  intros Hl. destruct fuel; simpl; destruct (Z.ltb_spec 0 len);
    try lia; reflexivity.
Qed.

Lemma bufsize_setup s s' :
  same_setup s s' -> I2C_BUFFERSIZE (env s') = I2C_BUFFERSIZE (env s).
Proof.
  intros H; unfold I2C_BUFFERSIZE; rewrite (su_esp _ _ H); reflexivity.
Qed.

Lemma firstn_length_bound {A} n (l : list A) cnt :
  n = Z.to_nat cnt -> 0 <= cnt -> Z.of_nat (length (firstn n l)) <= cnt.
Proof.
  intros -> Hc. pose proof (firstn_le_length (Z.to_nat cnt) l).
  rewrite length_firstn. lia.
Qed.

Lemma pageBlock_loop_runs fuel : forall a buf len incr s,
  constructed s -> 0 <= a < 4294967296 -> 0 <= len < 65536 ->
  len <= Z.of_nat fuel ->
  exists rv s' l,
    pageBlock_loop fuel a buf len incr s = Some (rv, s') /\
    same_setup s s' /\
    calls s' = calls s ++ l /\
    write_run (_deviceAddress (obj s)) (I2C_BUFFERSIZE (env s)) incr
              a buf len (w_mem (env s)) l rv (w_mem (env s')).
Proof.
  induction fuel as [|fuel IH]; intros a buf len incr s Hc Ha Hl Hf.
  - rewrite pageBlock_loop_done by lia.
    exists 0, s, []. rewrite app_nil_r.
    repeat split; auto with eeprom. apply run_done; lia.
  - destruct (Z.ltb_spec 0 len) as [Hpos|Hz].
    2:{ rewrite pageBlock_loop_done by lia.
        exists 0, s, []. rewrite app_nil_r.
        repeat split; auto with eeprom. apply run_done; lia. }
    rewrite pageBlock_loop_S by assumption.
    unfold constructed, I2C_PAGESIZE_24LC1025 in Hc. rewrite Hc.
    set (bs := I2C_BUFFERSIZE (env s)).
    destruct (chunk_bounds bs a len (bufsize_cases _) Hpos) as (Hc1 & Hc2 & Hc3).
    set (cnt := chunk 128 bs a len) in *. cbv zeta.
    destruct (WriteBlock_spec a buf cnt s) as (rv & s1 & -> & S1 & C1 & M1).
    destruct (Z.eqb_spec rv 0) as [->|Hrv]; simpl negb; cbv iota.
    + rewrite page_store_store in M1;
        [| assumption
         | pose proof (firstn_length_bound (Z.to_nat cnt) buf cnt eq_refl); lia].
      simpl in M1.
      destruct (IH (u32 (a + cnt))
                   (if incr then skipn (Z.to_nat cnt) buf else buf)
                   (u16 (len - cnt)) incr s1)
        as (rv' & s' & l' & -> & S' & C' & R').
      * eapply constructed_setup; [exact S1|exact Hc].
      * apply u32_range.
      * rewrite u16_small; lia.
      * rewrite u16_small; lia.
      * exists rv', s', (CallWrite a cnt (firstn (Z.to_nat cnt) buf) 0 :: l').
        split; [reflexivity|]. split; [eapply same_setup_trans; eauto|].
        split; [rewrite C', C1, <- app_assoc; reflexivity|].
        rewrite (su_dev _ _ S1), (bufsize_setup _ _ S1), M1 in R'.
        rewrite u16_small in R' by lia.
        apply run_step; assumption.
    + exists rv, s1, [CallWrite a cnt (firstn (Z.to_nat cnt) buf) rv].
      split; [reflexivity|]. split; [assumption|]. split; [assumption|].
      destruct (Z.eqb_spec rv 0); [contradiction|].
      rewrite M1. apply run_fail; assumption.
Qed.

Lemma pageBlock_runs a buf len incr s :
  constructed s -> 0 <= a < 4294967296 -> 0 <= len < 65536 ->
  exists rv s' l,
    _pageBlock a buf len incr s = Some (rv, s') /\
    same_setup s s' /\
    calls s' = calls s ++ l /\
    write_run (_deviceAddress (obj s)) (I2C_BUFFERSIZE (env s)) incr
              a buf len (w_mem (env s)) l rv (w_mem (env s')).
Proof.
  intros; unfold _pageBlock. apply pageBlock_loop_runs; auto; lia.
Qed.

(** *** What a run of the loop implies *)

Lemma write_run_writes dev bs incr a buf len m l rv m' :
  write_run dev bs incr a buf len m l rv m' ->
  Forall (fun c => is_write c = true) l.
Proof. induction 1; repeat constructor; assumption. Qed.

Lemma write_run_written dev bs incr a buf len m l rv m' :
  write_run dev bs incr a buf len m l rv m' -> m' = written dev m l.
Proof.
  induction 1 as [| a buf len m rv Hl Hrv |]; simpl; auto.
  now destruct (Z.eqb_spec rv 0).
Qed.

Lemma write_run_status dev bs incr a buf len m l rv m' :
  write_run dev bs incr a buf len m l rv m' ->
  (rv = 0 -> Forall (fun c => call_status c = 0) l) /\
  (rv <> 0 ->
   exists init last, l = init ++ [last] /\
     Forall (fun c => call_status c = 0) init /\ call_status last = rv).
Proof.
  induction 1 as [| a buf len m rv Hl Hrv | a buf len m l rv m' Hl Hr [IH0 IH1]].
  - split; [constructor | congruence].
  - split; [contradiction|]. intros _.
    exists [], (CallWrite a (chunk 128 bs a len)
                  (firstn (Z.to_nat (chunk 128 bs a len)) buf) rv).
    repeat split. constructor.
  - split.
    + intros E; constructor; [reflexivity | auto].
    + intros N. destruct (IH1 N) as (init & last & -> & Hi & Hs).
      exists (CallWrite a (chunk 128 bs a len)
                (firstn (Z.to_nat (chunk 128 bs a len)) buf) 0 :: init), last.
      repeat split; [constructor; [reflexivity | assumption] | assumption].
Qed.

Lemma all_acknowledged_zero init last rv :
  call_status last = rv -> rv <> 0 ->
  ~ Forall (fun c => call_status c = 0) (init ++ [last]).
Proof.
  intros Hs Hrv HF. apply Forall_app in HF as [_ HF].
  inversion HF; subst; contradiction.
Qed.

Lemma within_page a cnt d rv :
  0 < cnt <= 128 - a mod 128 ->
  within 128 (CallWrite a cnt d rv) /\ within 65536 (CallWrite a cnt d rv).
Proof.
  intros H; unfold within; simpl; split; Z.div_mod_to_equations; lia.
Qed.

Lemma write_run_bounds dev bs incr a buf len m l rv m' :
  write_run dev bs incr a buf len m l rv m' ->
  bs = 30 \/ bs = 128 ->
  forall pre c post, l = pre ++ c :: post ->
    0 < call_cnt c /\
    call_cnt c <= Z.min (Z.min bs (128 - call_addr c mod 128)) (len - sent pre) /\
    within 128 c /\ within 65536 c.
Proof.
  intros R Hbs.
  induction R as [| a buf len m rv Hl Hrv | a buf len m l rv m' Hl Hr IH];
    intros pre c post E.
  - destruct pre; discriminate.
  - destruct (chunk_bounds bs a len Hbs Hl) as (B1 & B2 & B3).
    destruct pre as [|x pre]; simpl in E.
    + injection E as <- _. cbn [call_cnt call_addr sent fold_right].
      destruct (within_page a (chunk 128 bs a len)
        (firstn (Z.to_nat (chunk 128 bs a len)) buf) rv); [lia|].
      repeat split; auto; lia.
    + destruct pre; discriminate.
  - destruct (chunk_bounds bs a len Hbs Hl) as (B1 & B2 & B3).
    destruct pre as [|x pre]; simpl in E.
    + injection E as <- _. cbn [call_cnt call_addr sent fold_right].
      destruct (within_page a (chunk 128 bs a len)
        (firstn (Z.to_nat (chunk 128 bs a len)) buf) 0); [lia|].
      repeat split; auto; lia.
    + injection E as <- E.
      destruct (IH pre c post E) as (I1 & I2 & I3 & I4).
      cbn [call_cnt call_addr sent fold_right]. fold (sent pre).
      repeat split; auto; lia.
Qed.

Lemma firstn_split {A} (n k : nat) (l : list A) :
  firstn (n + k) l = firstn n l ++ firstn k (skipn n l).
Proof.
  revert l; induction n as [|n IH]; intros [|x l]; simpl;
    try rewrite firstn_nil; try reflexivity.
  now rewrite IH.
Qed.

Lemma store_app dev : forall d1 m a d2,
  0 <= a < 4294967296 ->
  store dev m a (d1 ++ d2)
  = store dev (store dev m a d1) (u32 (a + Z.of_nat (length d1))) d2.
Proof.
  induction d1 as [|b tl IH]; intros m a d2 Ha.
  - simpl. rewrite Z.add_0_r, u32_small by assumption. reflexivity.
  - cbn [app store length]. rewrite IH by apply u32_range.
    f_equal. unfold u32. rewrite Zplus_mod_idemp_l. f_equal. lia.
Qed.

Lemma write_run_image dev bs a buf len m l m' :
  write_run dev bs true a buf len m l 0 m' ->
  bs = 30 \/ bs = 128 -> 0 <= a < 4294967296 -> 0 <= len ->
  len <= Z.of_nat (length buf) ->
  tiles a len l /\
  payload l = firstn (Z.to_nat len) buf /\
  m' = store dev m a (firstn (Z.to_nat len) buf).
Proof.
  intros R Hbs. remember 0 as rv eqn:Hrv. remember true as incr eqn:Hin.
  induction R as [| a buf len m rv Hl Hn | a buf len m l rv m' Hl Hr IH];
    intros Ha H0 Hb; subst.
  - replace len with 0 by lia. repeat split.
  - contradiction.
  - destruct (chunk_bounds bs a len Hbs Hl) as (B1 & B2 & B3).
    set (cnt := chunk 128 bs a len) in *.
    destruct IH as (T & P & Mm); auto.
    + apply u32_range.
    + lia.
    + rewrite length_skipn. lia.
    + assert (Hlen : length (firstn (Z.to_nat cnt) buf) = Z.to_nat cnt)
        by (rewrite length_firstn; lia).
      assert (Hsplit : firstn (Z.to_nat len) buf =
                firstn (Z.to_nat cnt) buf
                ++ firstn (Z.to_nat (len - cnt)) (skipn (Z.to_nat cnt) buf)).
      { rewrite <- firstn_split. f_equal. lia. }
      repeat split.
      * simpl. lia.
      * simpl. lia.
      * exact T.
      * unfold payload in *; simpl. rewrite P. symmetry. exact Hsplit.
      * rewrite Mm, Hsplit, store_app by assumption.
        rewrite Hlen, Z2Nat.id by lia. reflexivity.
Qed.

Lemma u16_range x : 0 <= u16 x < 65536.
Proof. unfold u16; apply Z.mod_pos_bound; lia. Qed.

Lemma pageBlock_stops a buf len incr s :
  constructed s -> 0 <= a < 4294967296 -> 0 <= len < 65536 ->
  exists rv s',
    _pageBlock a buf len incr s = Some (rv, s') /\
    stops_at_first_failure s rv s'.
Proof.
  intros Hc Ha Hl.
  destruct (pageBlock_runs a buf len incr s Hc Ha Hl)
    as (rv & s' & l & Hrun & _ & Hcalls & R).
  exists rv, s'; split; [exact Hrun|]. exists l.
  destruct (write_run_status _ _ _ _ _ _ _ _ _ _ R) as [St0 St1].
  repeat split.
  - exact Hcalls.
  - eapply write_run_writes; eassumption.
  - exact St0.
  - intros HF. destruct (Z.eq_dec rv 0) as [|N]; [assumption|].
    destruct (St1 N) as (init & last & -> & _ & Hs).
    exfalso; eapply all_acknowledged_zero; eauto.
  - exact St1.
  - eapply write_run_written; eassumption.
Qed.

(** X1: the image of a chunked write on a bus that acknowledges every
    chunk: the chunks of [writeBlock] tile the range it was given,
    carry the bytes of the buffer in order, and leave
    the cells a single store of those bytes would leave.  The length is
    the one [_pageBlock] receives, a uint16_t. *)
Lemma writeBlock_image a buf n s :
  constructed s -> 0 <= a < 4294967296 ->
  u16 n <= Z.of_nat (length buf) ->
  exists rv s' l,
    writeBlock a buf n s = Some (rv, s') /\
    calls s' = calls s ++ l /\
    (rv = 0 ->
     tiles a (u16 n) l /\
     payload l = firstn (Z.to_nat (u16 n)) buf /\
     w_mem (env s') =
       store (_deviceAddress (obj s)) (w_mem (env s)) a
             (firstn (Z.to_nat (u16 n)) buf)).
Proof.
  intros Hc Ha Hb. unfold writeBlock.
  pose proof (u16_range n) as Hn.
  destruct (pageBlock_runs a buf (u16 n) true s Hc Ha Hn)
    as (rv & s' & l & Hrun & _ & Hcalls & R).
  exists rv, s', l. split; [exact Hrun|]. split; [exact Hcalls|].
  intros ->.
  eapply write_run_image; eauto using bufsize_cases; lia.
Qed.

(** C1 (the code departs from the claim): a write of 65536 bytes, half the
    device, reaches [_pageBlock] as a length of 0.  [writeBlock] reports
    success and leaves every state as it found it, while a single write of
    those bytes would have changed the cells. *)
Theorem writeBlock_ignores_65536_bytes :
  (forall a buffer s, writeBlock a buffer 65536 s = Some (0, s)) /\
  let s := bench false (fun _ => 0) (fun _ => 0) in
  let buffer := repeat 1 (Z.to_nat 65536) in
  w_mem (env s) 0 = 0 /\
  store (_deviceAddress (obj s)) (w_mem (env s)) 0 buffer 0 = 1.
Proof.
  split.
  - intros a buffer s. unfold writeBlock, _pageBlock.
    change (u16 65536) with 0. now apply pageBlock_loop_done.
  - split; vm_compute; reflexivity.
Qed.

(** C2: every chunk [_pageBlock] writes is at most as long as the transfer
    buffer, as the rest of its page and as the bytes still to write; so it
    lies inside one page and on one side of the bank border. *)
Theorem pageBlock_chunks_within_page s a buf len incr :
  constructed s -> 0 <= a < 4294967296 -> 0 <= len < 65536 ->
  exists rv s' l,
    _pageBlock a buf len incr s = Some (rv, s') /\
    calls s' = calls s ++ l /\
    forall pre c post, l = pre ++ c :: post ->
      is_write c = true /\
      0 < call_cnt c /\
      call_cnt c <=
        Z.min (Z.min (I2C_BUFFERSIZE (env s))
                     (_pageSize (obj s) - call_addr c mod _pageSize (obj s)))
              (len - sent pre) /\
      within (_pageSize (obj s)) c /\
      within 65536 c.
Proof.
  intros Hc Ha Hl.
  destruct (pageBlock_runs a buf len incr s Hc Ha Hl)
    as (rv & s' & l & Hrun & _ & Hcalls & R).
  exists rv, s', l. split; [exact Hrun|]. split; [exact Hcalls|].
  intros pre c post E.
  unfold constructed, I2C_PAGESIZE_24LC1025 in Hc. rewrite Hc.
  split.
  - pose proof (write_run_writes _ _ _ _ _ _ _ _ _ _ R) as HF.
    rewrite Forall_forall in HF. apply HF. subst l.
    apply in_or_app; right; left; reflexivity.
  - eapply write_run_bounds; eauto using bufsize_cases.
Qed.

Lemma pageBlock_chunks_within_page_witness :
  let s := bench false (fun _ => 0) (fun _ => 0) in
  constructed s /\
  exists rv s' l,
    _pageBlock 65520 (repeat 7 300) 300 true s = Some (rv, s') /\
    calls s' = calls s ++ l /\
    forall pre c post, l = pre ++ c :: post ->
      is_write c = true /\
      0 < call_cnt c /\
      call_cnt c <=
        Z.min (Z.min (I2C_BUFFERSIZE (env s))
                     (_pageSize (obj s) - call_addr c mod _pageSize (obj s)))
              (300 - sent pre) /\
      within (_pageSize (obj s)) c /\
      within 65536 c.
Proof.
  split; [reflexivity|].
  apply (pageBlock_chunks_within_page
           (bench false (fun _ => 0) (fun _ => 0)) 65520 (repeat 7 300) 300 true);
    [reflexivity | lia | lia].
Defined.

(** C3: the chunked write returns 0 exactly when every chunk was
    acknowledged; otherwise it returns the status of the first chunk that
    was not, issues no chunk after it, and leaves the earlier chunks in the
    cells.  [writeBlock] and [setBlock] inherit this from [_pageBlock]. *)
Theorem pageBlock_stops_at_first_failure s a :
  constructed s -> 0 <= a < 4294967296 ->
  (forall buf len incr, 0 <= len < 65536 ->
     exists rv s', _pageBlock a buf len incr s = Some (rv, s') /\
                   stops_at_first_failure s rv s') /\
  (forall buf length,
     exists rv s', writeBlock a buf length s = Some (rv, s') /\
                   stops_at_first_failure s rv s') /\
  (forall data length,
     exists rv s', setBlock a data length s = Some (rv, s') /\
                   stops_at_first_failure s rv s').
Proof.
  intros Hc Ha. repeat split.
  - intros; now apply pageBlock_stops.
  - intros; unfold writeBlock. apply pageBlock_stops; auto using u16_range.
  - intros; unfold setBlock, bind, world.
    apply pageBlock_stops; auto using u16_range.
Qed.

Lemma pageBlock_stops_at_first_failure_witness :
  let s := bench false (fun _ => 0) (fun n => if Nat.eqb n 3 then 2 else 0) in
  constructed s /\
  (forall buf len incr, 0 <= len < 65536 ->
     exists rv s', _pageBlock 100 buf len incr s = Some (rv, s') /\
                   stops_at_first_failure s rv s') /\
  (forall buf length,
     exists rv s', writeBlock 100 buf length s = Some (rv, s') /\
                   stops_at_first_failure s rv s') /\
  (forall data length,
     exists rv s', setBlock 100 data length s = Some (rv, s') /\
                   stops_at_first_failure s rv s').
Proof.
  split; [reflexivity|].
  apply (pageBlock_stops_at_first_failure
           (bench false (fun _ => 0) (fun n => if Nat.eqb n 3 then 2 else 0)) 100);
    [reflexivity | lia].
Defined.

(** ** The chunked read loop *)

Lemma read_cnt_min bs len :
  bs = 30 \/ bs = 128 -> 0 < len -> read_cnt bs len = Z.min bs len.
Proof.
  intros Hb Hl. unfold read_cnt. rewrite (u8_small bs) by lia.
  destruct (Z.ltb_spec len bs); [rewrite u8_small|]; lia.
Qed.

Lemma readBlock_loop_S fuel a buf len rv s :
  0 < len ->
  readBlock_loop (S fuel) a buf len rv s =
  let cnt := read_cnt (I2C_BUFFERSIZE (env s)) len in
  match _ReadBlock a buf cnt s with
  | Some (r, s1) =>
      match readBlock_loop fuel (u32 (a + cnt))
              (skipn (Z.to_nat cnt) (snd r)) (u32 (len - cnt))
              (u32 (rv + fst r)) s1 with
      | Some (r', s') =>
          Some ((fst r', firstn (Z.to_nat cnt) (snd r) ++ snd r'), s')
      | None => None
      end
  | None => None
  end.
Proof.
  intros Hl. simpl.
  destruct (Z.ltb_spec 0 len); [|lia].
  reflexivity.
Qed.

Lemma readBlock_loop_done fuel a buf len rv s :
  len <= 0 -> readBlock_loop fuel a buf len rv s = Some ((rv, buf), s).
Proof.
  intros Hl. destruct fuel; simpl; destruct (Z.ltb_spec 0 len);
    try lia; reflexivity.
Qed.

Lemma chunked_sent bs : forall l a n, chunked bs a n l -> sent l = n.
Proof.
  induction l as [|c l IH]; simpl; intros a n H.
  - congruence.
  - destruct H as (_ & _ & _ & H). apply IH in H. lia.
Qed.

Lemma delivered_le_sent dev m l :
  Forall (read_of dev m) l -> delivered l <= sent l.
Proof.
  induction 1 as [|c l (_ & Hc & _) _ IH]; simpl; lia.
Qed.

Lemma delivered_nonneg l : 0 <= delivered l.
Proof. induction l; simpl; lia. Qed.

Lemma readBlock_loop_runs fuel : forall a buf len rv s,
  0 <= len < 4294967296 -> len <= Z.of_nat fuel -> 0 <= rv < 4294967296 ->
  exists r s' l,
    readBlock_loop fuel a buf len rv s = Some (r, s') /\
    same_setup s s' /\
    w_mem (env s') = w_mem (env s) /\
    calls s' = calls s ++ l /\
    chunked (I2C_BUFFERSIZE (env s)) a len l /\
    Forall (read_of (_deviceAddress (obj s)) (w_mem (env s))) l /\
    fst r = u32 (rv + delivered l) /\
    (delivered l = len -> firstn (Z.to_nat len) (snd r) = payload l).
Proof.
  induction fuel as [|fuel IH]; intros a buf len rv s Hl Hf Hrv.
  - rewrite readBlock_loop_done by lia.
    exists (rv, buf), s, []. rewrite app_nil_r. simpl.
    replace len with 0 by lia. rewrite Z.add_0_r, u32_small by assumption.
    repeat split; auto with eeprom.
  - destruct (Z.ltb_spec 0 len) as [Hpos|Hz].
    2:{ rewrite readBlock_loop_done by lia.
        exists (rv, buf), s, []. rewrite app_nil_r. simpl.
        replace len with 0 by lia. rewrite Z.add_0_r, u32_small by assumption.
        repeat split; auto with eeprom. }
    rewrite readBlock_loop_S by assumption.
    set (bs := I2C_BUFFERSIZE (env s)).
    pose proof (read_cnt_min bs len (bufsize_cases _) Hpos) as Hcnt.
    pose proof (bufsize_cases (env s)) as Hbs. fold bs in Hbs.
    set (cnt := read_cnt bs len) in *. cbv zeta.
    destruct (ReadBlock_spec a buf cnt s)
      as (got & s1 & -> & S1 & M1 & C1 & G1 & R1).
    cbn [fst snd].
    assert (Hg : Z.of_nat (length got) <= cnt) by lia.
    rewrite (u8_small (Z.of_nat (length got))) by lia.
    destruct (IH (u32 (a + cnt))
                 (skipn (Z.to_nat cnt) (got ++ skipn (length got) buf))
                 (u32 (len - cnt)) (u32 (rv + Z.of_nat (length got))) s1)
      as (r' & s' & l' & -> & S' & M' & C' & K' & F' & V' & P').
    + rewrite u32_small; lia.
    + rewrite u32_small; lia.
    + apply u32_range.
    + rewrite (u32_small (len - cnt)) in K', P' by lia.
      rewrite (bufsize_setup _ _ S1) in K'.
      rewrite (su_dev _ _ S1), M1 in F'.
      exists (fst r', firstn (Z.to_nat cnt) (got ++ skipn (length got) buf)
                      ++ snd r'),
             s', (CallRead a cnt got :: l').
      split; [reflexivity|].
      split; [eapply same_setup_trans; eauto|].
      split; [congruence|].
      split; [rewrite C', C1, <- app_assoc; reflexivity|].
      split; [cbn [chunked call_addr call_cnt]; fold bs; repeat split;
              try assumption; lia|].
      split; [constructor; [repeat split; assumption | assumption]|].
      cbn [fst snd delivered fold_right call_bytes]. fold (delivered l').
      split.
      * rewrite V'. unfold u32. rewrite Zplus_mod_idemp_l. f_equal. lia.
      * intros Hd.
        pose proof (delivered_le_sent _ _ _ F') as Hle.
        rewrite (chunked_sent _ _ _ _ K') in Hle.
        assert (Hfull : Z.of_nat (length got) = cnt) by lia.
        assert (Hn : length got = Z.to_nat cnt) by lia.
        unfold payload; cbn [flat_map call_bytes]. fold (payload l').
        rewrite <- P' by lia.
        assert (E : firstn (Z.to_nat cnt) (got ++ skipn (length got) buf) = got).
        { rewrite <- Hn, firstn_app, firstn_all, Nat.sub_diag, firstn_O.
          apply app_nil_r. }
        rewrite E.
        replace (Z.to_nat len) with (length got + Z.to_nat (len - cnt))%nat by lia.
        rewrite firstn_app_2. reflexivity.
Qed.

(** ** readBlock *)

Lemma split_cond a len :
  0 <= a < 4294967296 -> 0 <= len < 4294967296 ->
  (a <? 65536) && (65536 <? u32 (a + len)) = true <->
  a < 65536 /\ 65536 < a + len /\ a + len < 4294967296.
Proof.
  intros Ha Hl. rewrite andb_true_iff, Z.ltb_lt, Z.ltb_lt. unfold u32.
  split.
  - intros [H1 H2].
    destruct (Z_lt_le_dec (a + len) 4294967296) as [Hs|Hs].
    + rewrite Z.mod_small in H2 by lia. lia.
    + exfalso. revert H2. Z.div_mod_to_equations. lia.
  - intros (H1 & H2 & H3). rewrite Z.mod_small by lia. lia.
Qed.

Lemma readBlock_rec_plain depth a buf len s :
  (a <? 65536) && (65536 <? u32 (a + len)) = false ->
  readBlock_rec depth a buf len s
  = readBlock_loop (Z.to_nat len) a buf len 0 s.
Proof.
  intros H. destruct depth; simpl; rewrite H; reflexivity.
Qed.

Lemma readBlock_split_eq a buf len s :
  (a <? 65536) && (65536 <? u32 (a + len)) = true ->
  readBlock a buf len s =
  let sublen := u32 (65536 - a) in
  match readBlock_rec 0 a buf sublen s with
  | Some (r1, s1) =>
      match readBlock_rec 0 65536 (skipn (Z.to_nat sublen) (snd r1))
              (u32 (len - sublen)) s1 with
      | Some (r2, s2) =>
          Some ((u32 (fst r1 + fst r2),
                 firstn (Z.to_nat sublen) (snd r1) ++ snd r2), s2)
      | None => None
      end
  | None => None
  end.
Proof.
  intros H. unfold readBlock.
  change (readBlock_rec 1 a buf len s) with
    ((if (a <? 65536) && (65536 <? u32 (a + len)) then
        r1 <- readBlock_rec 0 a buf (u32 (65536 - a)) ;;
        r2 <- readBlock_rec 0 65536
                (skipn (Z.to_nat (u32 (65536 - a))) (snd r1))
                (u32 (len - u32 (65536 - a))) ;;
        ret (u32 (fst r1 + fst r2),
             firstn (Z.to_nat (u32 (65536 - a))) (snd r1) ++ snd r2)
      else readBlock_loop (Z.to_nat len) a buf len 0) s).
  rewrite H. reflexivity.
Qed.

Lemma payload_length l : Z.of_nat (length (payload l)) = delivered l.
Proof.
  induction l as [|c l IH]; [reflexivity|].
  unfold payload in *; simpl. rewrite length_app. lia.
Qed.

Lemma payload_app l1 l2 : payload (l1 ++ l2) = payload l1 ++ payload l2.
Proof. unfold payload. apply flat_map_app. Qed.

Lemma delivered_app l1 l2 : delivered (l1 ++ l2) = delivered l1 + delivered l2.
Proof. induction l1; simpl; lia. Qed.

Lemma sent_app l1 l2 : sent (l1 ++ l2) = sent l1 + sent l2.
Proof. induction l1; simpl; lia. Qed.

Lemma readBlock_runs a buf len s :
  0 <= a < 4294967296 -> 0 <= len < 4294967296 ->
  exists r s' l,
    readBlock a buf len s = Some (r, s') /\
    same_setup s s' /\
    w_mem (env s') = w_mem (env s) /\
    calls s' = calls s ++ l /\
    Forall (read_of (_deviceAddress (obj s)) (w_mem (env s))) l /\
    sent l = len /\
    fst r = delivered l /\
    (delivered l = len -> firstn (Z.to_nat len) (snd r) = payload l) /\
    (if (a <? 65536) && (65536 <? u32 (a + len)) then
       exists l1 l2, l = l1 ++ l2 /\
         chunked (I2C_BUFFERSIZE (env s)) a (65536 - a) l1 /\
         chunked (I2C_BUFFERSIZE (env s)) 65536 (a + len - 65536) l2
     else chunked (I2C_BUFFERSIZE (env s)) a len l).
Proof.
  intros Ha Hl.
  destruct ((a <? 65536) && (65536 <? u32 (a + len))) eqn:Hc.
  - rewrite readBlock_split_eq by assumption.
    apply split_cond in Hc as (H1 & H2 & H3); try assumption.
    rewrite (u32_small (65536 - a)) by lia. cbv zeta.
    rewrite (u32_small (len - (65536 - a))) by lia.
    rewrite readBlock_rec_plain.
    2:{ replace (a + (65536 - a)) with 65536 by lia.
        apply andb_false_iff; right; reflexivity. }
    destruct (readBlock_loop_runs (Z.to_nat (65536 - a)) a buf (65536 - a) 0 s)
      as (r1 & s1 & l1 & -> & S1 & M1 & C1 & K1 & F1 & V1 & P1); try lia.
    rewrite readBlock_rec_plain by reflexivity.
    destruct (readBlock_loop_runs (Z.to_nat (len - (65536 - a))) 65536
                (skipn (Z.to_nat (65536 - a)) (snd r1))
                (len - (65536 - a)) 0 s1)
      as (r2 & s2 & l2 & -> & S2 & M2 & C2 & K2 & F2 & V2 & P2); try lia.
    rewrite (bufsize_setup _ _ S1) in K2.
    rewrite (su_dev _ _ S1), M1 in F2.
    pose proof (delivered_le_sent _ _ _ F1) as D1.
    pose proof (delivered_le_sent _ _ _ F2) as D2.
    rewrite (chunked_sent _ _ _ _ K1) in D1.
    rewrite (chunked_sent _ _ _ _ K2) in D2.
    pose proof (delivered_nonneg l1). pose proof (delivered_nonneg l2).
    rewrite Z.add_0_l, u32_small in V1, V2 by lia.
    do 3 eexists. split; [reflexivity|].
    split; [eapply same_setup_trans; eauto|].
    split; [congruence|].
    split; [rewrite C2, C1, <- app_assoc; reflexivity|].
    split; [apply Forall_app; split; assumption|].
    split; [rewrite sent_app, (chunked_sent _ _ _ _ K1),
              (chunked_sent _ _ _ _ K2); lia|].
    cbn [fst snd]. rewrite delivered_app, V1, V2.
    split; [apply u32_small; lia|].
    split.
    + intros Hd.
      rewrite payload_app, <- P1, <- P2 by lia.
      assert (Hlen : length (firstn (Z.to_nat (65536 - a)) (snd r1))
                     = Z.to_nat (65536 - a)).
      { rewrite P1 by lia. pose proof (payload_length l1). lia. }
      replace (Z.to_nat len)
        with (length (firstn (Z.to_nat (65536 - a)) (snd r1))
              + Z.to_nat (len - (65536 - a)))%nat by lia.
      apply firstn_app_2.
    + exists l1, l2. repeat split; try assumption.
      replace (a + len - 65536) with (len - (65536 - a)) by lia. exact K2.
  - unfold readBlock. rewrite readBlock_rec_plain by assumption.
    destruct (readBlock_loop_runs (Z.to_nat len) a buf len 0 s)
      as (r & s' & l & -> & S1 & M1 & C1 & K1 & F1 & V1 & P1); try lia.
    pose proof (delivered_le_sent _ _ _ F1) as D1.
    rewrite (chunked_sent _ _ _ _ K1) in D1.
    pose proof (delivered_nonneg l).
    rewrite Z.add_0_l, u32_small in V1 by lia.
    exists r, s', l.
    split; [reflexivity|]. do 4 (split; [assumption|]).
    split; [eapply chunked_sent; eassumption|].
    split; [assumption|]. split; assumption.
Qed.

Lemma chunked_range bs : forall l a n,
  0 < bs -> chunked bs a n l -> 0 <= a -> a + n <= 4294967296 ->
  Forall (fun c => a <= call_addr c /\ call_addr c + call_cnt c <= a + n /\
                   0 < call_cnt c) l.
Proof.
  induction l as [|c l IH]; intros a n Hbs K Ha Hn; [constructor|].
  destruct K as (Hpos & Haddr & Hcnt & K).
  constructor; [lia|].
  destruct l as [|c' l']; [constructor|].
  assert (0 < n - call_cnt c) by (destruct K; assumption).
  rewrite u32_small in K by lia.
  eapply Forall_impl; [|apply (IH _ _ Hbs K); lia].
  simpl; intros; lia.
Qed.

Lemma chunked_reads_low bs l a n :
  0 < bs -> chunked bs a n l -> 0 <= a -> a + n <= 65536 ->
  Forall one_side l.
Proof.
  intros Hbs K Ha Hn.
  eapply Forall_impl; [|apply (chunked_range bs l a n); auto; lia].
  unfold one_side; simpl; intros; lia.
Qed.

Lemma chunked_reads_high bs l a n :
  0 < bs -> chunked bs a n l -> 65536 <= a -> a + n <= 4294967296 ->
  Forall one_side l.
Proof.
  intros Hbs K Ha Hn.
  eapply Forall_impl; [|apply (chunked_range bs l a n); auto; lia].
  unfold one_side; simpl; intros; lia.
Qed.

Lemma read_of_is_read dev m l :
  Forall (read_of dev m) l -> Forall (fun c => is_write c = false) l.
Proof. apply Forall_impl. now intros c []. Qed.

(** C4: a read request that spans the bank border is read as two passes of
    the chunk loop, one over [addr, 0x10000) and one over
    [0x10000, addr+len); a request on one side of the border is read in one
    pass; and no low-level read of a request that ends inside the 32-bit
    address space has bytes on both sides of the border.  The request is
    one a caller can make: its buffer holds [len] bytes, so a request that
    starts below the border does not run past 2^32. *)
Theorem readBlock_splits_at_bank_border s a buf len :
  0 <= a < 4294967296 -> 0 <= len < 4294967296 ->
  (a < 65536 -> a + len < 4294967296) ->
  exists r s' l,
    readBlock a buf len s = Some (r, s') /\
    calls s' = calls s ++ l /\
    Forall (fun c => is_write c = false) l /\
    (if (a <? 65536) && (65536 <? a + len) then
       exists l1 l2, l = l1 ++ l2 /\
         chunked (I2C_BUFFERSIZE (env s)) a (65536 - a) l1 /\
         chunked (I2C_BUFFERSIZE (env s)) 65536 (a + len - 65536) l2
     else chunked (I2C_BUFFERSIZE (env s)) a len l) /\
    (a + len <= 4294967296 -> Forall one_side l).
Proof.
  intros Ha Hl Hw.
  destruct (readBlock_runs a buf len s Ha Hl) as
    (r & s' & l & Hrun & _ & _ & Hcalls & HF & _ & _ & _ & Hshape).
  exists r, s', l. split; [exact Hrun|]. split; [exact Hcalls|].
  split; [eapply read_of_is_read; eassumption|].
  assert (Hcond : (a <? 65536) && (65536 <? u32 (a + len))
                  = (a <? 65536) && (65536 <? a + len)).
  { destruct (Z.ltb_spec a 65536) as [Hlow|Hhigh]; [|reflexivity].
    rewrite u32_small by (specialize (Hw Hlow); lia). reflexivity. }
  rewrite Hcond in Hshape.
  assert (Hbs : 0 < I2C_BUFFERSIZE (env s))
    by (destruct (bufsize_cases (env s)); lia).
  split; [exact Hshape|].
  intros H32.
  destruct ((a <? 65536) && (65536 <? a + len)) eqn:Hc.
  - apply andb_true_iff in Hc as [H1 H2].
    apply Z.ltb_lt in H1. apply Z.ltb_lt in H2.
    destruct Hshape as (l1 & l2 & -> & K1 & K2).
    apply Forall_app; split.
    + eapply chunked_reads_low; eauto; lia.
    + eapply chunked_reads_high; eauto; lia.
  - apply andb_false_iff in Hc as [Hc|Hc]; apply Z.ltb_ge in Hc.
    + eapply chunked_reads_high; eauto; lia.
    + eapply chunked_reads_low; eauto; lia.
Qed.

Lemma readBlock_splits_at_bank_border_witness :
  let s := bench false pattern (fun _ => 0) in
  exists r s' l,
    readBlock 65520 [] 40 s = Some (r, s') /\
    calls s' = calls s ++ l /\
    Forall (fun c => is_write c = false) l /\
    (if (65520 <? 65536) && (65536 <? 65520 + 40) then
       exists l1 l2, l = l1 ++ l2 /\
         chunked (I2C_BUFFERSIZE (env s)) 65520 (65536 - 65520) l1 /\
         chunked (I2C_BUFFERSIZE (env s)) 65536 (65520 + 40 - 65536) l2
     else chunked (I2C_BUFFERSIZE (env s)) 65520 40 l) /\
    (65520 + 40 <= 4294967296 -> Forall one_side l).
Proof.
  apply (readBlock_splits_at_bank_border
           (bench false pattern (fun _ => 0)) 65520 [] 40); lia.
Defined.

(** ** updateBlock *)

Lemma updateBlock_loop_S fuel a buffer len rv s :
  0 < len ->
  updateBlock_loop (S fuel) a buffer len rv s =
  let bs := I2C_BUFFERSIZE (env s) in
  let cnt := read_cnt bs len in
  match _ReadBlock a (fresh bs (w_junk (env s))) cnt s with
  | Some (r, s1) =>
      match (if negb (memcmp buffer (snd r) (Z.to_nat cnt) =? 0)
             then _pageBlock a buffer cnt true ;;; ret tt
             else ret tt) s1 with
      | Some (_, s2) =>
          updateBlock_loop fuel (u32 (a + cnt))
            (skipn (Z.to_nat cnt) buffer) (u32 (len - cnt))
            (u32 (rv + fst r)) s2
      | None => None
      end
  | None => None
  end.
Proof.
  intros Hl. simpl.
  destruct (Z.ltb_spec 0 len); [|lia].
  reflexivity.
Qed.

Lemma updateBlock_loop_done fuel a buffer len rv s :
  len <= 0 -> updateBlock_loop fuel a buffer len rv s = Some (rv, s).
Proof.
  intros Hl. destruct fuel; simpl; destruct (Z.ltb_spec 0 len);
    try lia; reflexivity.
Qed.

Lemma reads_app l1 l2 : reads (l1 ++ l2) = reads l1 ++ reads l2.
Proof. apply filter_app. Qed.

Lemma reads_of_writes l :
  Forall (fun c => is_write c = true) l -> reads l = [].
Proof.
  induction 1 as [|c l Hc _ IH]; [reflexivity|].
  unfold reads in *; simpl. rewrite Hc. exact IH.
Qed.

Lemma updateBlock_loop_runs fuel : forall a buffer len rv s,
  constructed s -> 0 <= a < 4294967296 ->
  0 <= len < 4294967296 -> len <= Z.of_nat fuel -> 0 <= rv < 4294967296 ->
  exists n s' l,
    updateBlock_loop fuel a buffer len rv s = Some (n, s') /\
    same_setup s s' /\
    calls s' = calls s ++ l /\
    n = u32 (rv + delivered (reads l)) /\
    update_run (_deviceAddress (obj s)) (I2C_BUFFERSIZE (env s))
               (w_junk (env s)) a buffer len (w_mem (env s)) l
               (w_mem (env s')).
Proof.
  induction fuel as [|fuel IH]; intros a buffer len rv s Hc Ha Hl Hf Hrv.
  - rewrite updateBlock_loop_done by lia.
    exists rv, s, []. rewrite app_nil_r. simpl.
    rewrite Z.add_0_r, u32_small by assumption.
    repeat split; auto with eeprom. apply up_done; lia.
  - destruct (Z.ltb_spec 0 len) as [Hpos|Hz].
    2:{ rewrite updateBlock_loop_done by lia.
        exists rv, s, []. rewrite app_nil_r. simpl.
        rewrite Z.add_0_r, u32_small by assumption.
        repeat split; auto with eeprom. apply up_done; lia. }
    rewrite updateBlock_loop_S by assumption. cbv zeta.
    set (bs := I2C_BUFFERSIZE (env s)).
    pose proof (bufsize_cases (env s)) as Hbs. fold bs in Hbs.
    rewrite (read_cnt_min bs len Hbs Hpos).
    set (cnt := Z.min bs len) in *.
    destruct (ReadBlock_spec a (fresh bs (w_junk (env s))) cnt s)
      as (got & s1 & -> & S1 & M1 & C1 & G1 & R1).
    cbn [fst snd].
    assert (Hg : Z.of_nat (length got) <= cnt) by lia.
    rewrite (u8_small (Z.of_nat (length got))) by lia.
    assert (Hread : read_of (_deviceAddress (obj s)) (w_mem (env s))
                            (CallRead a cnt got))
      by (repeat split; assumption).
    pose proof (constructed_setup _ _ S1 Hc) as Hc1.
    destruct (Z.eqb_spec
                (memcmp buffer (got ++ skipn (length got)
                                  (fresh bs (w_junk (env s))))
                        (Z.to_nat cnt)) 0) as [Heq|Hne]; cbn [negb].
    + unfold ret at 1.
      destruct (IH (u32 (a + cnt)) (skipn (Z.to_nat cnt) buffer)
                   (u32 (len - cnt)) (u32 (rv + Z.of_nat (length got))) s1)
        as (n & s' & l' & -> & S' & C' & N' & U');
        try assumption; try apply u32_range; try (rewrite u32_small; lia).
      rewrite (u32_small (len - cnt)) in U' by lia.
      rewrite (su_dev _ _ S1), (bufsize_setup _ _ S1), (su_junk _ _ S1), M1
        in U'.
      exists n, s', (CallRead a cnt got :: l').
      split; [reflexivity|].
      split; [eapply same_setup_trans; eauto|].
      split; [rewrite C', C1, <- app_assoc; reflexivity|].
      split.
      * rewrite N'. cbn. fold (reads l'). fold (delivered (reads l')).
        unfold u32. rewrite Zplus_mod_idemp_l. f_equal. lia.
      * apply up_same; assumption.
    + unfold bind.
      destruct (pageBlock_runs a buffer cnt true s1)
        as (rvw & s2 & wl & -> & S2 & C2 & W2); try assumption; try lia.
      unfold ret at 1.
      pose proof (same_setup_trans _ _ _ S1 S2) as S12.
      destruct (IH (u32 (a + cnt)) (skipn (Z.to_nat cnt) buffer)
                   (u32 (len - cnt)) (u32 (rv + Z.of_nat (length got))) s2)
        as (n & s' & l' & -> & S' & C' & N' & U');
        try apply u32_range; try (rewrite u32_small; lia).
      { eapply constructed_setup; eassumption. }
      rewrite (u32_small (len - cnt)) in U' by lia.
      rewrite (su_dev _ _ S12), (bufsize_setup _ _ S12), (su_junk _ _ S12)
        in U'.
      rewrite (su_dev _ _ S1), (bufsize_setup _ _ S1), M1 in W2.
      exists n, s', (CallRead a cnt got :: wl ++ l').
      split; [reflexivity|].
      split; [eapply same_setup_trans; eauto|].
      split; [rewrite C', C2, C1, <- !app_assoc; reflexivity|].
      split.
      * rewrite N'. cbn. fold (reads (wl ++ l')).
        rewrite reads_app, (reads_of_writes wl), app_nil_l
          by (eapply write_run_writes; eassumption).
        fold (delivered (reads l')).
        unfold u32. rewrite Zplus_mod_idemp_l. f_equal. lia.
      * eapply up_diff; eassumption.
Qed.

Lemma memcmp_zero_iff : forall n a b,
  (n <= length a)%nat -> (n <= length b)%nat ->
  memcmp a b n = 0 <-> firstn n a = firstn n b.
Proof.
  induction n as [|n IH]; intros a b Ha Hb; [simpl; tauto|].
  destruct a as [|x a]; [simpl in Ha; lia|].
  destruct b as [|y b]; [simpl in Hb; lia|].
  simpl in Ha, Hb. cbn [memcmp hd tl firstn].
  destruct (Z.eqb_spec x y) as [->|Hxy].
  - rewrite IH by lia. split; [intros ->; reflexivity | now intros [= ->]].
  - split; [lia | intros [= E _]; contradiction].
Qed.

Lemma content_app dev m : forall n1 a n2,
  0 <= a < 4294967296 ->
  content dev m a (n1 + n2)
  = content dev m a n1 ++ content dev m (u32 (a + Z.of_nat n1)) n2.
Proof.
  induction n1 as [|n1 IH]; intros a n2 Ha.
  - simpl. rewrite Z.add_0_r, u32_small by assumption. reflexivity.
  - cbn [Nat.add content app]. rewrite IH by apply u32_range.
    assert (E : u32 (u32 (a + 1) + Z.of_nat n1) = u32 (a + Z.of_nat (S n1))).
    { unfold u32. rewrite Zplus_mod_idemp_l.
      replace (a + 1 + Z.of_nat n1) with (a + Z.of_nat (S n1)) by lia.
      reflexivity. }
    rewrite E. reflexivity.
Qed.

Lemma app_inv_length_eq {A} : forall (a c b d : list A),
  length a = length c -> a ++ b = c ++ d -> a = c /\ b = d.
Proof.
  induction a as [|x a IH]; intros [|y c] b d Hlen E; try discriminate.
  - split; [reflexivity | exact E].
  - injection E as -> E. injection Hlen as Hlen.
    destruct (IH c b d Hlen E) as [-> ->]. split; reflexivity.
Qed.

Lemma update_run_reads dev bs junk a buffer len m l m' :
  update_run dev bs junk a buffer len m l m' -> 0 <= len ->
  bs = 30 \/ bs = 128 ->
  chunked bs a len (reads l) /\
  Forall (fun c => is_write c = false /\
                   Z.of_nat (length (call_bytes c)) <= call_cnt c) (reads l).
Proof.
  intros R Hl Hbs.
  induction R as [| a buffer len m got l m' Hp Hr Hm R IH
                  | a buffer len m got wl rv m1 l m' Hp Hr Hm W R IH].
  - split; [simpl; lia | constructor].
  - destruct IH as [K F]; [lia|].
    split; [|constructor; [split; apply Hr | exact F]].
    cbn. fold (reads l). repeat split; [assumption | exact K].
  - destruct IH as [K F]; [lia|].
    assert (E : reads (CallRead a (Z.min bs len) got :: wl ++ l)
                = CallRead a (Z.min bs len) got :: reads l).
    { cbn. fold (reads (wl ++ l)).
      rewrite reads_app, (reads_of_writes wl), app_nil_l
        by (eapply write_run_writes; eassumption). reflexivity. }
    rewrite E.
    split; [|constructor; [split; apply Hr | exact F]].
    cbn. repeat split; [assumption | exact K].
Qed.

Lemma within_bank_offset a cnt :
  0 <= a -> 0 < cnt -> a / 65536 = (a + cnt - 1) / 65536 ->
  a mod 65536 + cnt <= 65536.
Proof. intros; Z.div_mod_to_equations; lia. Qed.

Lemma update_run_equal dev bs junk a buffer len m l m' :
  update_run dev bs junk a buffer len m l m' ->
  bs = 30 \/ bs = 128 -> 0 <= a < 4294967296 -> 0 <= len ->
  len <= Z.of_nat (length buffer) ->
  content dev m a (Z.to_nat len) = firstn (Z.to_nat len) buffer ->
  Forall (fun c => complete c /\ within 65536 c) (reads l) ->
  writes l = [] /\ m' = m.
Proof.
  intros R Hbs.
  induction R as [| a buffer len m got l m' Hp Hr Hm R IH
                  | a buffer len m got wl rv m1 l m' Hp Hr Hm W R IH];
    intros Ha Hl Hb Hcont HF.
  - split; reflexivity.
  - cbn in HF. fold (reads l) in HF. inversion HF as [|c0 l0 _ HF']; subst.
    set (cnt := Z.min bs len) in *.
    replace (Z.to_nat len) with (Z.to_nat cnt + Z.to_nat (len - cnt))%nat
      in Hcont by lia.
    rewrite content_app, firstn_split in Hcont by assumption.
    apply app_inv_length_eq in Hcont;
      [destruct Hcont as [_ Hcont]
      | rewrite content_length, length_firstn; lia].
    rewrite Z2Nat.id in Hcont by lia.
    cbn. apply IH; auto.
    + apply u32_range.
    + lia.
    + rewrite length_skipn. lia.
  - exfalso. apply Hm.
    set (cnt := Z.min bs len) in *.
    assert (E : reads (CallRead a cnt got :: wl ++ l)
                = CallRead a cnt got :: reads l).
    { cbn. fold (reads (wl ++ l)).
      rewrite reads_app, (reads_of_writes wl), app_nil_l
        by (eapply write_run_writes; eassumption). reflexivity. }
    rewrite E in HF. inversion HF as [|c0 l0 [Hfull Hin] _]; subst.
    unfold complete, within in Hfull, Hin; cbn in Hfull, Hin.
    destruct Hr as (_ & _ & Hgot); cbn in Hgot.
    rewrite seq_read_content in Hgot
      by (try assumption; rewrite Hfull; apply within_bank_offset; lia).
    assert (Hn : length got = Z.to_nat cnt) by lia.
    assert (Hpre : got = firstn (Z.to_nat cnt) buffer).
    { rewrite Hgot, Hn.
      replace (Z.to_nat len) with (Z.to_nat cnt + Z.to_nat (len - cnt))%nat
        in Hcont by lia.
      rewrite content_app, firstn_split in Hcont by assumption.
      apply app_inv_length_eq in Hcont;
        [destruct Hcont as [Hcont _]; exact Hcont
        | rewrite content_length, length_firstn; lia]. }
    apply memcmp_zero_iff.
    + lia.
    + rewrite length_app. lia.
    + rewrite <- Hn at 2. rewrite firstn_app, firstn_all, Nat.sub_diag, firstn_O,
        app_nil_r. symmetry. exact Hpre.
Qed.

Lemma complete_delivered l : Forall complete l -> delivered l = sent l.
Proof.
  induction 1 as [|c l Hc _ IH]; [reflexivity|].
  unfold complete in Hc. simpl. lia.
Qed.

Lemma bounded_delivered l :
  Forall (fun c => is_write c = false /\
                   Z.of_nat (length (call_bytes c)) <= call_cnt c) l ->
  delivered l <= sent l.
Proof.
  induction 1 as [|c l [_ Hc] _ IH]; simpl; lia.
Qed.

Lemma updateBlock_runs a buffer len s :
  constructed s -> 0 <= a < 4294967296 -> 0 <= len < 4294967296 ->
  exists n s' l,
    updateBlock a buffer len s = Some (n, s') /\
    same_setup s s' /\
    calls s' = calls s ++ l /\
    n = delivered (reads l) /\
    chunked (I2C_BUFFERSIZE (env s)) a len (reads l) /\
    update_run (_deviceAddress (obj s)) (I2C_BUFFERSIZE (env s))
               (w_junk (env s)) a buffer len (w_mem (env s)) l
               (w_mem (env s')).
Proof.
  intros Hc Ha Hl. unfold updateBlock.
  destruct (updateBlock_loop_runs (Z.to_nat len) a buffer len 0 s)
    as (n & s' & l & Hrun & S' & C' & N' & U'); try assumption; try lia.
  destruct (update_run_reads _ _ _ _ _ _ _ _ _ U') as [K F];
    [lia | apply bufsize_cases |].
  exists n, s', l. split; [exact Hrun|]. split; [exact S'|].
  split; [exact C'|]. split; [|split; assumption].
  rewrite N', Z.add_0_l. apply u32_small.
  pose proof (delivered_nonneg (reads l)).
  pose proof (bounded_delivered _ F) as Hle.
  rewrite (chunked_sent _ _ _ _ K) in Hle. lia.
Qed.

(** C5 (the code departs from the claim): an update of 30 bytes from
    0xFFF0 on, over cells that already hold those bytes, on a bus that
    acknowledges everything.  The one read [updateBlock] issues for the
    comparison starts in the lower bank and runs over its end, so the
    device delivers the first cells of that bank for the last 14 bytes;
    the comparison finds a difference and the chunk is written again. *)
Theorem updateBlock_rewrites_across_bank_border :
  let s := bench false pattern (fun _ => 0) in
  let buffer := content (_deviceAddress (obj s)) (w_mem (env s)) 65520 30 in
  run (updateBlock 65520 buffer 30) s
      (fun n s' => (n, map call_addr (writes (calls s')),
                    map call_status (writes (calls s')),
                    map call_cnt (reads (calls s'))))
  = Some (30, [65520; 65536], [0; 0], [30]).
Proof. vm_compute. reflexivity. Qed.

(** X15: where no comparison read runs over the end of a bank, and every
    read is complete, [updateBlock] over cells that already hold the buffer
    writes nothing and leaves the cells as they are. *)
Lemma updateBlock_skips_equal_chunks s a buffer len :
  constructed s -> 0 <= a < 4294967296 -> 0 <= len < 4294967296 ->
  len <= Z.of_nat (length buffer) ->
  content (_deviceAddress (obj s)) (w_mem (env s)) a (Z.to_nat len)
    = firstn (Z.to_nat len) buffer ->
  exists n s' l,
    updateBlock a buffer len s = Some (n, s') /\
    calls s' = calls s ++ l /\
    (Forall (fun c => complete c /\ within 65536 c) (reads l) ->
     writes l = [] /\ w_mem (env s') = w_mem (env s)).
Proof.
  intros Hc Ha Hl Hb Hcont.
  destruct (updateBlock_runs a buffer len s Hc Ha Hl)
    as (n & s' & l & Hrun & _ & C' & _ & _ & U').
  exists n, s', l. split; [exact Hrun|]. split; [exact C'|].
  intros HF.
  eapply update_run_equal; eauto using bufsize_cases; lia.
Qed.

(** C9 (the code departs from the claim): one byte to update at address
    0, which holds another value, on a bus that acknowledges everything and
    on a bus that refuses the write.  [updateBlock] returns 1 both times:
    the status of the chunked write it issues is dropped. *)
Theorem updateBlock_hides_write_failure :
  let good := bench false (fun _ => 0) (fun _ => 0) in
  let bad := bench false (fun _ => 0) (fun n => if Nat.eqb n 2 then 2 else 0) in
  run (updateBlock 0 [85] 1) good
      (fun n s' => (n, calls s', w_mem (env s') 0))
    = Some (1, [CallRead 0 1 [0]; CallWrite 0 1 [85] 0], 85) /\
  run (updateBlock 0 [85] 1) bad
      (fun n s' => (n, calls s', w_mem (env s') 0))
    = Some (1, [CallRead 0 1 [0]; CallWrite 0 1 [85] 2], 0).
Proof. split; vm_compute; reflexivity. Qed.

Lemma updateBlockVerify_unfold a buffer length s :
  updateBlockVerify a buffer length s =
  match updateBlock a buffer length s with
  | Some (n, s') =>
      if n =? length then read_back a buffer length s' else Some (false, s')
  | None => None
  end.
Proof.
  unfold updateBlockVerify, read_back, bind.
  destruct (updateBlock a buffer length s) as [[n s']|]; [|reflexivity].
  destruct (n =? length); reflexivity.
Qed.

(** C10: [updateBlock] returns the number of bytes its comparison reads
    delivered, whatever it wrote; the reads ask for [length] bytes in all,
    so the result is [length] when every read is complete; and
    [updateBlockVerify] fails at once when that count is not [length]. *)
Theorem updateBlock_returns_bytes_read s a buffer length :
  constructed s -> 0 <= a < 4294967296 -> 0 <= length < 4294967296 ->
  exists n s' l,
    updateBlock a buffer length s = Some (n, s') /\
    calls s' = calls s ++ l /\
    n = delivered (reads l) /\
    sent (reads l) = length /\
    (Forall complete (reads l) -> n = length) /\
    updateBlockVerify a buffer length s =
      (if n =? length then read_back a buffer length s'
       else Some (false, s')).
Proof.
  intros Hc Ha Hl.
  destruct (updateBlock_runs a buffer length s Hc Ha Hl)
    as (n & s' & l & Hrun & _ & C' & N' & K & _).
  exists n, s', l. split; [exact Hrun|]. split; [exact C'|].
  split; [exact N'|].
  pose proof (chunked_sent _ _ _ _ K) as Hs.
  split; [exact Hs|]. split.
  - intros HF. rewrite N', (complete_delivered _ HF). exact Hs.
  - rewrite updateBlockVerify_unfold, Hrun. reflexivity.
Qed.

Lemma updateBlock_returns_bytes_read_witness :
  let s := bench false pattern (fun _ => 0) in
  constructed s /\
  exists n s' l,
    updateBlock 200 (repeat 9 70) 70 s = Some (n, s') /\
    calls s' = calls s ++ l /\
    n = delivered (reads l) /\
    sent (reads l) = 70 /\
    (Forall complete (reads l) -> n = 70) /\
    updateBlockVerify 200 (repeat 9 70) 70 s =
      (if n =? 70 then read_back 200 (repeat 9 70) 70 s'
       else Some (false, s')).
Proof.
  split; [reflexivity|].
  apply (updateBlock_returns_bytes_read
           (bench false pattern (fun _ => 0)) 200 (repeat 9 70) 70);
    [reflexivity | lia | lia].
Defined.

(** ** The verify wrappers *)

Lemma read_back_spec a buffer len s :
  0 <= a < 4294967296 -> 0 <= len < 4294967296 ->
  len <= Z.of_nat (length buffer) ->
  exists b s' rl,
    read_back a buffer len s = Some (b, s') /\
    same_setup s s' /\
    w_mem (env s') = w_mem (env s) /\
    calls s' = calls s ++ rl /\
    Forall (fun c => is_write c = false) rl /\
    (b = true <->
     delivered rl = len /\ payload rl = firstn (Z.to_nat len) buffer).
Proof.
  intros Ha Hl Hb. unfold read_back, bind, uninitialised, world.
  destruct (readBlock_runs a
              (firstn (Z.to_nat len)
                 (w_junk (env s) ++ repeat 0 (Z.to_nat len))) len s Ha Hl)
    as (r & s' & l & -> & S' & M' & C' & F' & _ & V' & P' & _).
  destruct (Z.eqb_spec (fst r) len) as [E|N]; cbn [negb]; unfold ret.
  - do 3 eexists. split; [reflexivity|].
    do 3 (split; [eassumption|]).
    split; [eapply read_of_is_read; eassumption|].
    rewrite V' in E. specialize (P' E).
    assert (Hlen : (Z.to_nat len <= length (snd r))%nat).
    { pose proof (payload_length l) as Hp. rewrite <- P', length_firstn in Hp.
      lia. }
    rewrite Z.eqb_eq, memcmp_zero_iff, P' by lia.
    tauto.
  - do 3 eexists. split; [reflexivity|].
    do 3 (split; [eassumption|]).
    split; [eapply read_of_is_read; eassumption|].
    rewrite V' in N. split; [discriminate | tauto].
Qed.

Lemma writeBlockVerify_unfold a buffer length s :
  writeBlockVerify a buffer length s =
  match writeBlock a buffer length s with
  | Some (rv, s1) =>
      if negb (rv =? 0) then Some (false, s1)
      else read_back a buffer length s1
  | None => None
  end.
Proof.
  unfold writeBlockVerify, read_back, bind.
  destruct (writeBlock a buffer length s) as [[rv s1]|]; [|reflexivity].
  destruct (negb (rv =? 0)); reflexivity.
Qed.

Lemma read_back_runs a buffer len s :
  0 <= a < 4294967296 -> 0 <= len < 4294967296 ->
  len <= Z.of_nat (length buffer) ->
  exists b s' rl data r,
    read_back a buffer len s = Some (b, s') /\
    readBlock a data len s = Some (r, s') /\
    fst r = delivered rl /\
    same_setup s s' /\
    w_mem (env s') = w_mem (env s) /\
    calls s' = calls s ++ rl /\
    Forall (fun c => is_write c = false) rl /\
    sent rl = len /\
    read_passes (I2C_BUFFERSIZE (env s)) a len rl /\
    (b = true <->
     delivered rl = len /\ payload rl = firstn (Z.to_nat len) buffer).
Proof.
  intros Ha Hl Hb. unfold read_back, bind, uninitialised, world.
  set (data := firstn (Z.to_nat len)
                 (w_junk (env s) ++ repeat 0 (Z.to_nat len))).
  destruct (readBlock_runs a data len s Ha Hl)
    as (r & s' & l & Hrun & S' & M' & C' & F' & Hs & V' & P' & Hshape).
  rewrite Hrun.
  destruct (Z.eqb_spec (fst r) len) as [E|N]; cbn [negb]; unfold ret.
  - exists (memcmp (snd r) buffer (Z.to_nat len) =? 0), s', l, data, r.
    split; [reflexivity|]. split; [exact Hrun|]. split; [exact V'|].
    split; [exact S'|]. split; [exact M'|]. split; [exact C'|].
    split; [eapply read_of_is_read; eassumption|].
    split; [exact Hs|]. split; [exact Hshape|].
    rewrite V' in E. specialize (P' E).
    assert (Hlen : (Z.to_nat len <= length (snd r))%nat).
    { pose proof (payload_length l) as Hp. rewrite <- P', length_firstn in Hp.
      lia. }
    rewrite Z.eqb_eq, memcmp_zero_iff, P' by lia.
    tauto.
  - exists false, s', l, data, r.
    split; [reflexivity|]. split; [exact Hrun|]. split; [exact V'|].
    split; [exact S'|]. split; [exact M'|]. split; [exact C'|].
    split; [eapply read_of_is_read; eassumption|].
    split; [exact Hs|]. split; [exact Hshape|].
    rewrite V' in N. split; [discriminate | tauto].
Qed.

Lemma u16_le x : 0 <= x -> u16 x <= x.
Proof. intros Hx. unfold u16. apply Z.mod_le; lia. Qed.

(** C6: [writeBlockVerify] runs [writeBlock]; its chunks are writes, and
    when all were acknowledged they tile the range and carry the buffer.
    If a chunk was refused it returns false and reads nothing.  Otherwise
    it runs [readBlock] over [memoryAddress, memoryAddress + length): the
    reads are those of that request and ask for [length] bytes.  It returns
    true exactly when every chunk was acknowledged, every byte came back
    and the bytes read back are those of the buffer; so it returns false
    whenever a byte read back differs.  Nothing is written after the
    read-back, and the cells are those the write left: no rollback, no
    second attempt. *)
Theorem writeBlockVerify_compares_read_back s a buffer length :
  constructed s -> 0 <= a < 4294967296 -> 0 <= length < 4294967296 ->
  length <= Z.of_nat (List.length buffer) ->
  exists b s' wl rl rv s1,
    writeBlockVerify a buffer length s = Some (b, s') /\
    writeBlock a buffer length s = Some (rv, s1) /\
    calls s1 = calls s ++ wl /\
    calls s' = calls s ++ wl ++ rl /\
    Forall (fun c => is_write c = true) wl /\
    Forall (fun c => is_write c = false) rl /\
    (rv = 0 <-> Forall (fun c => call_status c = 0) wl) /\
    (rv = 0 ->
     tiles a (u16 length) wl /\
     payload wl = firstn (Z.to_nat (u16 length)) buffer) /\
    (rv <> 0 -> b = false /\ rl = [] /\ s' = s1) /\
    (rv = 0 ->
     sent rl = length /\
     read_passes (I2C_BUFFERSIZE (env s)) a length rl /\
     exists data r,
       readBlock a data length s1 = Some (r, s') /\ fst r = delivered rl) /\
    (b = true <->
     Forall (fun c => call_status c = 0) wl /\
     delivered rl = length /\
     payload rl = firstn (Z.to_nat length) buffer) /\
    w_mem (env s') = written (_deviceAddress (obj s)) (w_mem (env s)) wl.
Proof.
  intros Hc Ha Hl Hb.
  rewrite writeBlockVerify_unfold. unfold writeBlock.
  destruct (pageBlock_runs a buffer (u16 length) true s Hc Ha (u16_range _))
    as (rv & s1 & wl & Hw & S1 & Cw & R).
  rewrite Hw.
  destruct (write_run_status _ _ _ _ _ _ _ _ _ _ R) as [St0 St1].
  pose proof (write_run_writes _ _ _ _ _ _ _ _ _ _ R) as Fw.
  pose proof (write_run_written _ _ _ _ _ _ _ _ _ _ R) as Mw.
  assert (St : rv = 0 <-> Forall (fun c => call_status c = 0) wl).
  { split; [exact St0|]. intros HF.
    destruct (Z.eq_dec rv 0) as [|N]; [assumption|].
    destruct (St1 N) as (init & last & -> & _ & Hs).
    exfalso; eapply all_acknowledged_zero; eauto. }
  assert (Himg : rv = 0 ->
            tiles a (u16 length) wl /\
            payload wl = firstn (Z.to_nat (u16 length)) buffer).
  { intros E. subst rv.
    pose proof (u16_range length). pose proof (u16_le length (proj1 Hl)).
    destruct (write_run_image _ _ _ _ _ _ _ _ R) as (T & P & _);
      eauto using bufsize_cases; lia. }
  destruct (Z.eqb_spec rv 0) as [E|N]; cbn [negb].
  - destruct (read_back_runs a buffer length s1 Ha Hl Hb)
      as (b & s' & rl & data & r & -> & Hr & Vr & _ & Mr & Cr & Fr & Hs & Hp
          & Hbr).
    rewrite (bufsize_setup _ _ S1) in Hp.
    exists b, s', wl, rl, rv, s1. split; [reflexivity|].
    split; [reflexivity|]. split; [exact Cw|].
    split; [rewrite Cr, Cw, app_assoc; reflexivity|].
    split; [exact Fw|]. split; [exact Fr|]. split; [exact St|].
    split; [exact Himg|]. split; [intros N; contradiction|].
    split; [intros _; split; [exact Hs|]; split; [exact Hp|];
            exists data, r; split; assumption|].
    split; [|congruence].
    rewrite Hbr. split; [intros []; repeat split; auto; now apply St | tauto].
  - exists false, s1, wl, [], rv, s1. split; [reflexivity|].
    split; [reflexivity|]. split; [exact Cw|].
    split; [rewrite app_nil_r; exact Cw|].
    split; [exact Fw|]. split; [constructor|]. split; [exact St|].
    split; [exact Himg|]. split; [intros _; repeat split|].
    split; [intros E; contradiction|].
    split; [|exact Mw].
    split; [discriminate|]. intros (HF & _). apply St in HF. contradiction.
Qed.

Lemma writeBlockVerify_compares_read_back_witness :
  let s := bench false pattern (fun _ => 0) in
  let buffer := [1; 2; 3; 4; 5] in
  constructed s /\
  exists b s' wl rl rv s1,
    writeBlockVerify 65534 buffer 5 s = Some (b, s') /\
    writeBlock 65534 buffer 5 s = Some (rv, s1) /\
    calls s1 = calls s ++ wl /\
    calls s' = calls s ++ wl ++ rl /\
    Forall (fun c => is_write c = true) wl /\
    Forall (fun c => is_write c = false) rl /\
    (rv = 0 <-> Forall (fun c => call_status c = 0) wl) /\
    (rv = 0 ->
     tiles 65534 (u16 5) wl /\
     payload wl = firstn (Z.to_nat (u16 5)) buffer) /\
    (rv <> 0 -> b = false /\ rl = [] /\ s' = s1) /\
    (rv = 0 ->
     sent rl = 5 /\
     read_passes (I2C_BUFFERSIZE (env s)) 65534 5 rl /\
     exists data r,
       readBlock 65534 data 5 s1 = Some (r, s') /\ fst r = delivered rl) /\
    (b = true <->
     Forall (fun c => call_status c = 0) wl /\
     delivered rl = 5 /\
     payload rl = firstn (Z.to_nat 5) buffer) /\
    w_mem (env s') = written (_deviceAddress (obj s)) (w_mem (env s)) wl.
Proof.
  split; [reflexivity|].
  apply (writeBlockVerify_compares_read_back
           (bench false pattern (fun _ => 0)) 65534 [1; 2; 3; 4; 5] 5);
    [reflexivity | lia | lia | simpl; lia].
Defined.

(** ** Address and bank resolution, and the ready-wait gate *)

(** C7: [_beginTransmission] returns for every address, and what it
    resolves is a function of the address and the base device address only:
    the control byte is the base address, with bit 0x04 set when the
    address is at or above 0x10000, and the two address bytes it queues are
    the low 16 bits of the address, high byte first. *)
Theorem beginTransmission_resolves s memoryAddress :
  exists hi lo s',
    _beginTransmission memoryAddress s = Some ([hi; lo], s') /\
    _actualAddress (obj s') =
      (if 65536 <=? memoryAddress then Z.lor (_deviceAddress (obj s)) 4
       else _deviceAddress (obj s)) /\
    (65536 <= memoryAddress -> Z.testbit (_actualAddress (obj s')) 2 = true) /\
    hi * 256 + lo = Z.land memoryAddress 65535 /\
    Z.land memoryAddress 65535 = memoryAddress mod 65536 /\
    0 <= hi < 256 /\ 0 <= lo < 256 /\
    same_setup s s' /\ calls s' = calls s /\ w_mem (env s') = w_mem (env s).
Proof.
  destruct (beginTransmission_spec memoryAddress s)
    as (s' & Hrun & S' & _ & A' & M' & C').
  destruct (address_bytes_eq memoryAddress) as (hi & lo & E & Hm & Hhi & Hlo).
  assert (Hland : Z.land memoryAddress 65535 = memoryAddress mod 65536).
  { change 65535 with (Z.ones 16). rewrite Z.land_ones by lia. reflexivity. }
  exists hi, lo, s'. rewrite <- E.
  split; [exact Hrun|]. split; [exact A'|].
  split.
  - intros Hge. rewrite A'. unfold control_byte.
    destruct (Z.leb_spec 65536 memoryAddress); [|lia].
    rewrite Z.lor_spec. change (Z.testbit 4 2) with true. apply orb_true_r.
  - rewrite Hland. repeat split; try assumption; try apply Hhi; try apply Hlo;
      apply S'.
Qed.

Lemma polling_probes c W s s' :
  polling c W (fun x => x) s s' ->
  exists new,
    w_probes (env s') = w_probes (env s) ++ new /\
    Forall (fun p => p_ctrl p = c /\
                     u32 (p_time p - _lastWrite (obj s)) <= W) new /\
    Forall (fun p => p_status p <> 0) (removelast new) /\
    ((new <> [] /\ p_status (last new (mkProbe 0 0 0)) = 0) \/ W < elapsed s').
Proof.
  induction 1 as [s He | s He Hack | s s' He Hnack Hp IH].
  - exists []. rewrite app_nil_r.
    split; [reflexivity|]. split; [constructor|]. split; [constructor|].
    right; exact He.
  - exists [mkProbe (u32 (w_now (env s))) c (status (env s))].
    split; [reflexivity|]. split; [|split].
    + constructor; [|constructor]. split; [reflexivity | exact He].
    + constructor.
    + left. split; [discriminate | exact Hack].
  - destruct IH as (new & Hw & HF & HN & Hend).
    exists (mkProbe (u32 (w_now (env s))) c (status (env s)) :: new).
    split; [rewrite Hw; simpl; rewrite <- app_assoc; reflexivity|].
    split; [constructor; [split; [reflexivity | exact He] | exact HF]|].
    destruct new as [|p new].
    + split; [constructor|]. right.
      destruct Hend as [[N _]|Hend]; [contradiction | exact Hend].
    + split.
      * change (removelast (?x :: p :: new)) with (x :: removelast (p :: new)).
        constructor; [exact Hnack | exact HN].
      * destruct Hend as [[_ Hl]|Hend]; [left | right; exact Hend].
        split; [discriminate | exact Hl].
Qed.

(** C8: the gate returns for every state.  It probes the device address
    only after a clock reading that is not past the deadline of 5000 us
    plus the extra write-cycle time since the last write; every probe but
    the last was refused, and at the end either the last probe was
    acknowledged or the deadline has passed.  If the deadline has passed on
    entry nothing is probed and the state is unchanged; if the first probe
    is acknowledged it is the only one, and all that happened is that
    probe. *)
Theorem waitEEReady_gate s :
  waitTime (obj s) = 5000 + u8 (_extraTWR (obj s)) * 1000 /\
  exists s' new,
    _waitEEReady s = Some (tt, s') /\
    idle s s' /\
    w_probes (env s') = w_probes (env s) ++ new /\
    Forall (fun p => p_ctrl p = _deviceAddress (obj s) /\
                     u32 (p_time p - _lastWrite (obj s)) <= waitTime (obj s))
           new /\
    Forall (fun p => p_status p <> 0) (removelast new) /\
    ((new <> [] /\ p_status (last new (mkProbe 0 0 0)) = 0) \/
     waitTime (obj s) < elapsed s') /\
    (waitTime (obj s) < elapsed s -> new = [] /\ s' = s) /\
    (elapsed s <= waitTime (obj s) -> status (env s) = 0 ->
     new = [mkProbe (u32 (w_now (env s))) (_deviceAddress (obj s)) 0] /\
     s' = after_probe (_deviceAddress (obj s)) s).
Proof.
  split.
  { unfold waitTime, I2C_WRITEDELAY. pose proof (u8_range (_extraTWR (obj s))).
    apply u32_small; lia. }
  destruct (waitEEReady_runs s) as (s' & Hrun & Hp).
  destruct (polling_probes _ _ _ _ Hp) as (new & Hw & HF & HN & Hend).
  exists s', new. split; [exact Hrun|].
  split; [eapply polling_idle; [|exact Hp]; auto with eeprom|].
  split; [exact Hw|]. split; [exact HF|]. split; [exact HN|].
  split; [exact Hend|]. split.
  - intros Hx. inversion Hp as [s0 He | s0 He Hack | s0 s1 He Hnack Hp']; subst;
      try lia.
    split; [|reflexivity].
    apply (app_inv_head (w_probes (env s'))). rewrite app_nil_r.
    symmetry; exact Hw.
  - intros Hin Hack.
    inversion Hp as [s0 He | s0 He Hack' | s0 s1 He Hnack Hp']; subst;
      try lia; try contradiction.
    split; [|reflexivity].
    apply (app_inv_head (w_probes (env s))). rewrite <- Hw.
    simpl. rewrite Hack. reflexivity.
Qed.

(** ** The two scenarios of the specification, run on the bench *)

Example write_300_bytes_across_the_border :
  let src := map (fun i => Z.of_nat i mod 256) (seq 0 300) in
  run (writeBlock 65520 src 300 ;;; readBlock 65520 [] 300)
      (bench false (fun _ => 255) (fun _ => 0))
      (fun r s' => (r, map call_addr (firstn 3 (calls s'))))
  = Some ((300, src), [65520; 65536; 65566]).
Proof. vm_compute. reflexivity. Qed.

Example fill_1000_bytes :
  run (setBlock 0 255 1000 ;;; readBlock 0 [] 1000)
      (bench false (fun _ => 0) (fun _ => 0))
      (fun r _ => r)
  = Some (1000, repeat 255 1000).
Proof. vm_compute. reflexivity. Qed.

(** * Further properties of the driver *)

(** ** Cells and logical addresses *)

Lemma bank_cases c : bank c = 0 \/ bank c = 65536.
Proof. unfold bank; destruct (Z.testbit c 2); auto. Qed.

Lemma u32_mod_bank x : u32 x mod 65536 = x mod 65536.
Proof.
  unfold u32. Z.div_mod_to_equations. lia.
Qed.

Lemma u32_add_l a i : u32 (u32 a + i) = u32 (a + i).
Proof. unfold u32. apply Zplus_mod_idemp_l. Qed.

(** Two addresses less than a bank apart never share a cell. *)
Lemma cell_distinct dev a i j :
  0 <= i -> 0 <= j -> i <> j -> Z.abs (i - j) < 65536 ->
  cell dev (u32 (a + i)) <> cell dev (u32 (a + j)).
Proof.
  intros Hi Hj Hij Hd. unfold cell.
  rewrite !u32_mod_bank.
  destruct (bank_cases (control_byte dev (u32 (a + i)))) as [-> | ->],
           (bank_cases (control_byte dev (u32 (a + j)))) as [-> | ->];
    Z.div_mod_to_equations; lia.
Qed.

Lemma store_frame dev : forall data m a k,
  (forall i, 0 <= i < Z.of_nat (length data) -> cell dev (u32 (a + i)) <> k) ->
  0 <= a < 4294967296 ->
  store dev m a data k = m k.
Proof.
  induction data as [|b tl IH]; intros m a k Hk Ha; [reflexivity|].
  cbn [store]. rewrite IH.
  - unfold upd. destruct (Z.eqb_spec k (cell dev a)) as [E|]; [|reflexivity].
    exfalso. apply (Hk 0); [simpl length; lia|].
    rewrite Z.add_0_r, u32_small by assumption. congruence.
  - intros i Hi. rewrite u32_add_l.
    replace (a + 1 + i) with (a + (1 + i)) by lia.
    apply Hk. simpl length. lia.
  - apply u32_range.
Qed.

Lemma content_store dev : forall data m a,
  0 <= a < 4294967296 -> Z.of_nat (length data) <= 65536 ->
  content dev (store dev m a data) a (length data) = data.
Proof.
  induction data as [|b tl IH]; intros m a Ha Hl; [reflexivity|].
  cbn [store content length]. simpl length in Hl. f_equal.
  - rewrite store_frame.
    + unfold upd. now rewrite Z.eqb_refl.
    + intros i Hi. rewrite u32_add_l.
      replace (a + 1 + i) with (a + (1 + i)) by lia.
      replace (cell dev a) with (cell dev (u32 (a + 0)))
        by (rewrite Z.add_0_r, u32_small by assumption; reflexivity).
      apply cell_distinct; lia.
    + apply u32_range.
  - apply IH; [apply u32_range | lia].
Qed.

Lemma content_frame dev m1 m2 : forall n a,
  0 <= a < 4294967296 ->
  (forall i, 0 <= i < Z.of_nat n ->
     m1 (cell dev (u32 (a + i))) = m2 (cell dev (u32 (a + i)))) ->
  content dev m1 a n = content dev m2 a n.
Proof.
  induction n as [|n IH]; intros a Ha H; [reflexivity|].
  cbn [content]. f_equal.
  - specialize (H 0). rewrite Z.add_0_r, u32_small in H by assumption.
    apply H; lia.
  - apply IH; [apply u32_range|].
    intros i Hi. rewrite u32_add_l.
    replace (a + 1 + i) with (a + (1 + i)) by lia. apply H; lia.
Qed.

(** ** What the chunked write changes, and what it leaves alone *)

Lemma write_run_frame dev bs incr a buf len m l rv m' :
  write_run dev bs incr a buf len m l rv m' ->
  bs = 30 \/ bs = 128 -> 0 <= a < 4294967296 ->
  forall k,
    (forall i, 0 <= i < len -> cell dev (u32 (a + i)) <> k) ->
    m' k = m k.
Proof.
  intros R Hbs.
  induction R as [| a buf len m rv Hl Hn | a buf len m l rv m' Hl Hr IH];
    intros Ha k Hk; try reflexivity.
  destruct (chunk_bounds bs a len Hbs Hl) as (B1 & B2 & B3).
  set (cnt := chunk 128 bs a len) in *.
  rewrite IH.
  - apply store_frame; [|assumption].
    intros i Hi. apply Hk.
    pose proof (firstn_length_bound (Z.to_nat cnt) buf cnt eq_refl). lia.
  - apply u32_range.
  - intros i Hi. rewrite u32_add_l.
    replace (a + cnt + i) with (a + (cnt + i)) by lia. apply Hk. lia.
Qed.

Lemma firstn_repeat {A} (v : A) : forall n k,
  (n <= k)%nat -> firstn n (repeat v k) = repeat v n.
Proof.
  induction n as [|n IH]; intros [|k] H; simpl; try reflexivity; try lia.
  f_equal. apply IH. lia.
Qed.

Lemma write_run_fill dev bs v a len m l m' :
  write_run dev bs false a (repeat v (Z.to_nat bs)) len m l 0 m' ->
  bs = 30 \/ bs = 128 -> 0 <= a < 4294967296 -> 0 <= len ->
  tiles a len l /\
  payload l = repeat v (Z.to_nat len) /\
  m' = store dev m a (repeat v (Z.to_nat len)).
Proof.
  intros R Hbs.
  remember 0 as rv eqn:Hrv. remember false as incr eqn:Hin.
  remember (repeat v (Z.to_nat bs)) as buf eqn:Hbuf.
  induction R as [| a buf len m rv Hl Hn | a buf len m l rv m' Hl Hr IH];
    intros Ha H0; subst.
  - replace len with 0 by lia. repeat split.
  - contradiction.
  - destruct (chunk_bounds bs a len Hbs Hl) as (B1 & B2 & B3).
    set (cnt := chunk 128 bs a len) in *.
    destruct IH as (T & P & Mm); auto; [apply u32_range | lia |].
    assert (Hd : firstn (Z.to_nat cnt) (repeat v (Z.to_nat bs))
                 = repeat v (Z.to_nat cnt))
      by (apply firstn_repeat; lia).
    assert (Hsplit : repeat v (Z.to_nat len)
              = repeat v (Z.to_nat cnt) ++ repeat v (Z.to_nat (len - cnt))).
    { rewrite <- repeat_app. f_equal. lia. }
    rewrite Hd in *.
    repeat split.
    + simpl. lia.
    + simpl. lia.
    + exact T.
    + unfold payload in *; simpl. rewrite P. symmetry. exact Hsplit.
    + rewrite Mm, Hsplit, store_app by assumption.
      rewrite repeat_length, Z2Nat.id by lia. reflexivity.
Qed.

Lemma writeBlock_image_witness :
  let s := bench false (fun _ => 0) (fun _ => 0) in
  let buf := [10; 20; 30; 40] in
  constructed s /\
  exists rv s' l,
    writeBlock 65534 buf 4 s = Some (rv, s') /\
    calls s' = calls s ++ l /\
    (rv = 0 ->
     tiles 65534 (u16 4) l /\
     payload l = firstn (Z.to_nat (u16 4)) buf /\
     w_mem (env s') =
       store (_deviceAddress (obj s)) (w_mem (env s)) 65534
             (firstn (Z.to_nat (u16 4)) buf)).
Proof.
  split; [reflexivity|].
  apply (writeBlock_image 65534 [10; 20; 30; 40] 4
           (bench false (fun _ => 0) (fun _ => 0)));
    [reflexivity | lia | vm_compute; discriminate].
Defined.

(** X2: [setBlock] on a bus that acknowledges every chunk: the chunks tile
    the range, every byte sent is the fill value, and the cells are those
    of one store of that value over the range.  The length is the one
    [_pageBlock] receives, a uint16_t. *)
Theorem setBlock_fills s a v n :
  constructed s -> 0 <= a < 4294967296 ->
  exists rv s' l,
    setBlock a v n s = Some (rv, s') /\
    calls s' = calls s ++ l /\
    (rv = 0 ->
     tiles a (u16 n) l /\
     payload l = repeat v (Z.to_nat (u16 n)) /\
     w_mem (env s') =
       store (_deviceAddress (obj s)) (w_mem (env s)) a
             (repeat v (Z.to_nat (u16 n)))).
Proof.
  intros Hc Ha. unfold setBlock, bind, world.
  pose proof (u16_range n) as Hn.
  destruct (pageBlock_runs a (repeat v (Z.to_nat (I2C_BUFFERSIZE (env s))))
              (u16 n) false s Hc Ha Hn)
    as (rv & s' & l & Hrun & _ & Hcalls & R).
  exists rv, s', l. split; [exact Hrun|]. split; [exact Hcalls|].
  intros ->.
  eapply write_run_fill; eauto using bufsize_cases; lia.
Qed.

Lemma setBlock_fills_witness :
  let s := bench true pattern (fun _ => 0) in
  constructed s /\
  exists rv s' l,
    setBlock 100 255 1000 s = Some (rv, s') /\
    calls s' = calls s ++ l /\
    (rv = 0 ->
     tiles 100 (u16 1000) l /\
     payload l = repeat 255 (Z.to_nat (u16 1000)) /\
     w_mem (env s') =
       store (_deviceAddress (obj s)) (w_mem (env s)) 100
             (repeat 255 (Z.to_nat (u16 1000)))).
Proof.
  split; [reflexivity|].
  apply (setBlock_fills (bench true pattern (fun _ => 0)) 100 255 1000);
    [reflexivity | lia].
Defined.

(** X3: whatever the bus answers, [writeBlock] and [setBlock] change no
    cell but those of the addresses in the range they were given. *)
Theorem block_writes_stay_in_range s a :
  constructed s -> 0 <= a < 4294967296 ->
  (forall buf n, exists rv s',
     writeBlock a buf n s = Some (rv, s') /\
     forall k,
       (forall i, 0 <= i < u16 n ->
          cell (_deviceAddress (obj s)) (u32 (a + i)) <> k) ->
       w_mem (env s') k = w_mem (env s) k) /\
  (forall v n, exists rv s',
     setBlock a v n s = Some (rv, s') /\
     forall k,
       (forall i, 0 <= i < u16 n ->
          cell (_deviceAddress (obj s)) (u32 (a + i)) <> k) ->
       w_mem (env s') k = w_mem (env s) k).
Proof.
  intros Hc Ha. split.
  - intros buf n. unfold writeBlock.
    destruct (pageBlock_runs a buf (u16 n) true s Hc Ha (u16_range n))
      as (rv & s' & l & Hrun & _ & _ & R).
    exists rv, s'. split; [exact Hrun|].
    eapply write_run_frame; eauto using bufsize_cases.
  - intros v n. unfold setBlock, bind, world.
    destruct (pageBlock_runs a (repeat v (Z.to_nat (I2C_BUFFERSIZE (env s))))
                (u16 n) false s Hc Ha (u16_range n))
      as (rv & s' & l & Hrun & _ & _ & R).
    exists rv, s'. split; [exact Hrun|].
    eapply write_run_frame; eauto using bufsize_cases.
Qed.

Lemma block_writes_stay_in_range_witness :
  let s := bench false pattern (fun n => if Nat.eqb n 1 then 3 else 0) in
  constructed s /\
  (forall buf n, exists rv s',
     writeBlock 130000 buf n s = Some (rv, s') /\
     forall k,
       (forall i, 0 <= i < u16 n ->
          cell (_deviceAddress (obj s)) (u32 (130000 + i)) <> k) ->
       w_mem (env s') k = w_mem (env s) k) /\
  (forall v n, exists rv s',
     setBlock 130000 v n s = Some (rv, s') /\
     forall k,
       (forall i, 0 <= i < u16 n ->
          cell (_deviceAddress (obj s)) (u32 (130000 + i)) <> k) ->
       w_mem (env s') k = w_mem (env s) k).
Proof.
  split; [reflexivity|].
  apply (block_writes_stay_in_range
           (bench false pattern (fun n => if Nat.eqb n 1 then 3 else 0)) 130000);
    [reflexivity | lia].
Defined.

(** ** What readBlock delivers *)

Lemma chunked_content dev m bs : forall l x n B,
  0 < bs -> chunked bs x n l ->
  Forall (read_of dev m) l -> Forall complete l ->
  0 <= B -> B mod 65536 = 0 -> B <= x -> x + n <= B + 65536 ->
  x + n <= 4294967296 ->
  payload l = content dev m x (Z.to_nat n).
Proof.
  induction l as [|c l IH]; intros x n B Hbs K HF HC HB0 HB Hx Hn H32.
  - simpl in K. subst n. reflexivity.
  - destruct K as (Hpos & Haddr & Hcnt & K).
    inversion HF as [|c0 l0 (_ & _ & Hbytes) HF']; subst c0 l0.
    inversion HC as [|c0 l0 Hfull HC']; subst c0 l0.
    unfold complete in Hfull.
    set (cnt := call_cnt c) in *.
    assert (Hc : 0 < cnt <= n) by lia.
    assert (Hlen : length (call_bytes c) = Z.to_nat cnt) by lia.
    rewrite Haddr, Hlen, seq_read_content in Hbytes
      by (try lia; Z.div_mod_to_equations; lia).
    replace (Z.to_nat n) with (Z.to_nat cnt + Z.to_nat (n - cnt))%nat by lia.
    rewrite content_app by lia. rewrite Z2Nat.id by lia.
    unfold payload; cbn [flat_map]. fold (payload l). rewrite <- Hbytes.
    f_equal.
    destruct l as [|c' l'].
    + simpl in K. rewrite K. reflexivity.
    + assert (0 < n - cnt) by (destruct K; assumption).
      rewrite u32_small in K |- * by lia.
      apply (IH _ _ B); auto; lia.
Qed.

Lemma delivered_full_complete dev m l :
  Forall (read_of dev m) l -> delivered l = sent l -> Forall complete l.
Proof.
  intros F. pose proof (delivered_le_sent _ _ _ F) as Hle. revert Hle.
  induction F as [|c l (_ & Hc & _) F IH]; intros Hle E; [constructor|].
  pose proof (delivered_le_sent _ _ _ F). simpl in E.
  constructor; [unfold complete; lia | apply IH; lia].
Qed.

(** X4: whatever the bus answers, [readBlock] returns, changes no cell and
    issues reads only; it asks for [length] bytes in all and returns the
    number of bytes delivered, which is [length] exactly when every
    low-level read is complete: a short count is how a failure shows. *)
Theorem readBlock_counts_bytes_delivered s a buffer length :
  0 <= a < 4294967296 -> 0 <= length < 4294967296 ->
  exists r s' l,
    readBlock a buffer length s = Some (r, s') /\
    calls s' = calls s ++ l /\
    Forall (fun c => is_write c = false) l /\
    w_mem (env s') = w_mem (env s) /\
    sent l = length /\
    fst r = delivered l /\
    0 <= fst r <= length /\
    (fst r = length <-> Forall complete l).
Proof.
  intros Ha Hl.
  destruct (readBlock_runs a buffer length s Ha Hl)
    as (r & s' & l & Hrun & _ & M & C & F & Hs & V & _ & _).
  exists r, s', l. split; [exact Hrun|]. split; [exact C|].
  split; [eapply read_of_is_read; eassumption|].
  split; [exact M|]. split; [exact Hs|]. split; [exact V|].
  pose proof (delivered_le_sent _ _ _ F) as Hle.
  pose proof (delivered_nonneg l).
  split; [lia|]. rewrite V, <- Hs. split.
  - eapply delivered_full_complete; eassumption.
  - apply complete_delivered.
Qed.

Lemma readBlock_counts_bytes_delivered_witness :
  let s := bench false pattern (fun n => if Nat.eqb n 2 then 1 else 0) in
  exists r s' l,
    readBlock 65500 [] 100 s = Some (r, s') /\
    calls s' = calls s ++ l /\
    Forall (fun c => is_write c = false) l /\
    w_mem (env s') = w_mem (env s) /\
    sent l = 100 /\
    fst r = delivered l /\
    0 <= fst r <= 100 /\
    (fst r = 100 <-> Forall complete l).
Proof.
  apply (readBlock_counts_bytes_delivered
           (bench false pattern (fun n => if Nat.eqb n 2 then 1 else 0))
           65500 [] 100); lia.
Defined.

Lemma readBlock_payload a buffer length s :
  0 <= a -> 0 <= length -> a + length <= 131072 ->
  exists r s' l,
    readBlock a buffer length s = Some (r, s') /\
    same_setup s s' /\
    w_mem (env s') = w_mem (env s) /\
    calls s' = calls s ++ l /\
    Forall (fun c => is_write c = false) l /\
    sent l = length /\
    fst r = delivered l /\
    (delivered l = length ->
     firstn (Z.to_nat length) (snd r) = payload l) /\
    (Forall complete l ->
     payload l
     = content (_deviceAddress (obj s)) (w_mem (env s)) a (Z.to_nat length)).
Proof.
  intros Ha Hl Hd.
  destruct (readBlock_runs a buffer length s) as
    (r & s' & l & Hrun & S' & M' & C & F & Hs & V & P & Hshape); try lia.
  exists r, s', l. split; [exact Hrun|]. split; [exact S'|].
  split; [exact M'|]. split; [exact C|].
  split; [eapply read_of_is_read; eassumption|].
  split; [exact Hs|]. split; [exact V|]. split; [exact P|].
  intros HC.
  assert (Hbs : 0 < I2C_BUFFERSIZE (env s))
    by (destruct (bufsize_cases (env s)); lia).
  rewrite (u32_small (a + length)) in Hshape by lia.
  destruct ((a <? 65536) && (65536 <? a + length)) eqn:Hc.
  - apply andb_true_iff in Hc as [H1 H2].
    apply Z.ltb_lt in H1. apply Z.ltb_lt in H2.
    destruct Hshape as (l1 & l2 & -> & K1 & K2).
    apply Forall_app in F as [F1 F2]. apply Forall_app in HC as [C1 C2].
    rewrite payload_app.
    rewrite (chunked_content _ _ _ _ _ _ 0 Hbs K1 F1 C1)
      by (try reflexivity; lia).
    rewrite (chunked_content _ _ _ _ _ _ 65536 Hbs K2 F2 C2)
      by (try reflexivity; lia).
    replace (Z.to_nat length)
      with (Z.to_nat (65536 - a) + Z.to_nat (a + length - 65536))%nat by lia.
    rewrite content_app by lia. rewrite Z2Nat.id by lia.
    replace (a + (65536 - a)) with 65536 by lia. reflexivity.
  - apply andb_false_iff in Hc as [Hc|Hc]; apply Z.ltb_ge in Hc.
    + apply (chunked_content _ _ _ _ _ _ 65536 Hbs Hshape F HC);
        try reflexivity; lia.
    + apply (chunked_content _ _ _ _ _ _ 0 Hbs Hshape F HC);
        try reflexivity; lia.
Qed.

(** X5: a request inside the device, whose low-level reads are all
    complete, puts into the buffer the bytes of the cells of
    [addr, addr + length), in order, across the bank border too. *)
Theorem readBlock_delivers_cells s a buffer length :
  0 <= a -> 0 <= length -> a + length <= 131072 ->
  exists r s' l,
    readBlock a buffer length s = Some (r, s') /\
    calls s' = calls s ++ l /\
    (Forall complete l ->
     fst r = length /\
     firstn (Z.to_nat length) (snd r)
       = content (_deviceAddress (obj s)) (w_mem (env s)) a (Z.to_nat length)).
Proof.
  intros Ha Hl Hd.
  destruct (readBlock_payload a buffer length s Ha Hl Hd) as
    (r & s' & l & Hrun & _ & _ & C & _ & Hs & V & P & Hcells).
  exists r, s', l. split; [exact Hrun|]. split; [exact C|].
  intros HC.
  assert (Hfull : delivered l = length)
    by (rewrite (complete_delivered _ HC); exact Hs).
  split; [congruence|]. rewrite (P Hfull). apply Hcells, HC.
Qed.

Lemma readBlock_delivers_cells_witness :
  let s := bench false pattern (fun _ => 0) in
  exists r s' l,
    readBlock 65500 [] 100 s = Some (r, s') /\
    calls s' = calls s ++ l /\
    (Forall complete l ->
     fst r = 100 /\
     firstn (Z.to_nat 100) (snd r)
       = content (_deviceAddress (obj s)) (w_mem (env s)) 65500 (Z.to_nat 100)).
Proof.
  apply (readBlock_delivers_cells (bench false pattern (fun _ => 0))
           65500 [] 100); lia.
Defined.

(** ** The verify wrappers on a bus that answers *)

Lemma read_back_cells a buffer len s :
  0 <= a -> 0 <= len -> a + len <= 131072 ->
  len <= Z.of_nat (length buffer) ->
  exists b s' rl,
    read_back a buffer len s = Some (b, s') /\
    same_setup s s' /\
    w_mem (env s') = w_mem (env s) /\
    calls s' = calls s ++ rl /\
    Forall (fun c => is_write c = false) rl /\
    (b = true <->
     delivered rl = len /\ payload rl = firstn (Z.to_nat len) buffer) /\
    (Forall complete rl ->
     delivered rl = len /\
     payload rl
     = content (_deviceAddress (obj s)) (w_mem (env s)) a (Z.to_nat len)).
Proof.
  intros Ha Hl Hd Hb. unfold read_back, bind, uninitialised, world.
  destruct (readBlock_payload a
              (firstn (Z.to_nat len)
                 (w_junk (env s) ++ repeat 0 (Z.to_nat len))) len s Ha Hl Hd)
    as (r & s' & l & -> & S' & M' & C' & F' & Hs & V' & P' & Hcells).
  assert (Hall : Forall complete l ->
            delivered l = len /\
            payload l = content (_deviceAddress (obj s)) (w_mem (env s)) a
                                (Z.to_nat len)).
  { intros HC. split; [|apply Hcells, HC].
    rewrite (complete_delivered _ HC). exact Hs. }
  destruct (Z.eqb_spec (fst r) len) as [E|N]; cbn [negb]; unfold ret.
  - do 3 eexists. split; [reflexivity|].
    do 4 (split; [eassumption|]). split; [|exact Hall].
    rewrite V' in E. specialize (P' E).
    assert (Hlen : (Z.to_nat len <= length (snd r))%nat).
    { pose proof (payload_length l) as Hp. rewrite <- P', length_firstn in Hp.
      lia. }
    rewrite Z.eqb_eq, memcmp_zero_iff, P' by lia.
    tauto.
  - do 3 eexists. split; [reflexivity|].
    do 4 (split; [eassumption|]). split; [|exact Hall].
    rewrite V' in N. split; [discriminate | tauto].
Qed.

(** X6: a write of fewer than 65536 bytes inside the device, with its
    verification: when every chunk is acknowledged and every read of the
    read-back is complete, [writeBlockVerify] returns true and the cells of
    the range hold the bytes of the buffer. *)
Theorem writeBlockVerify_succeeds s a buffer length :
  constructed s -> 0 <= a -> 0 <= length < 65536 -> a + length <= 131072 ->
  length <= Z.of_nat (List.length buffer) ->
  exists b s' wl rl,
    writeBlockVerify a buffer length s = Some (b, s') /\
    calls s' = calls s ++ wl ++ rl /\
    Forall (fun c => is_write c = true) wl /\
    Forall (fun c => is_write c = false) rl /\
    (Forall (fun c => call_status c = 0) wl -> Forall complete rl ->
     b = true /\
     content (_deviceAddress (obj s)) (w_mem (env s')) a (Z.to_nat length)
       = firstn (Z.to_nat length) buffer).
Proof.
  intros Hc Ha Hl Hd Hb.
  rewrite writeBlockVerify_unfold. unfold writeBlock.
  rewrite (u16_small length) by lia.
  destruct (pageBlock_runs a buffer length true s) as
    (rv & s1 & wl & -> & S1 & Cw & R); try assumption; try lia.
  destruct (write_run_status _ _ _ _ _ _ _ _ _ _ R) as [St0 St1].
  pose proof (write_run_writes _ _ _ _ _ _ _ _ _ _ R) as Fw.
  destruct (Z.eqb_spec rv 0) as [->|N]; cbn [negb].
  - destruct (write_run_image _ _ _ _ _ _ _ _ R) as (_ & _ & Mw);
      eauto using bufsize_cases; try lia.
    destruct (read_back_cells a buffer length s1) as
      (b & s' & rl & -> & _ & Mr & Cr & Fr & Hbr & Hcells); try lia.
    exists b, s', wl, rl. split; [reflexivity|].
    split; [rewrite Cr, Cw, app_assoc; reflexivity|].
    split; [exact Fw|]. split; [exact Fr|].
    intros _ HC. destruct (Hcells HC) as [Hfull Hpay].
    assert (Hstored :
      content (_deviceAddress (obj s)) (w_mem (env s1)) a (Z.to_nat length)
      = firstn (Z.to_nat length) buffer).
    { rewrite Mw.
      assert (Hn : List.length (firstn (Z.to_nat length) buffer)
                   = Z.to_nat length) by (rewrite length_firstn; lia).
      set (d := firstn (Z.to_nat length) buffer) in *.
      rewrite <- Hn. apply content_store; lia. }
    split.
    + apply Hbr. split; [exact Hfull|].
      rewrite Hpay, (su_dev _ _ S1). exact Hstored.
    + rewrite Mr. exact Hstored.
  - exists false, s1, wl, []. split; [reflexivity|].
    split; [rewrite app_nil_r; exact Cw|].
    split; [exact Fw|]. split; [constructor|].
    intros HF _. exfalso.
    destruct (St1 N) as (init & last & -> & _ & Hs).
    eapply all_acknowledged_zero; eauto.
Qed.

Lemma writeBlockVerify_succeeds_witness :
  let s := bench false pattern (fun _ => 0) in
  let buffer := [1; 2; 3; 4; 5] in
  constructed s /\
  exists b s' wl rl,
    writeBlockVerify 65534 buffer 5 s = Some (b, s') /\
    calls s' = calls s ++ wl ++ rl /\
    Forall (fun c => is_write c = true) wl /\
    Forall (fun c => is_write c = false) rl /\
    (Forall (fun c => call_status c = 0) wl -> Forall complete rl ->
     b = true /\
     content (_deviceAddress (obj s)) (w_mem (env s')) 65534 (Z.to_nat 5)
       = firstn (Z.to_nat 5) buffer).
Proof.
  split; [reflexivity|].
  apply (writeBlockVerify_succeeds
           (bench false pattern (fun _ => 0)) 65534 [1; 2; 3; 4; 5] 5);
    [reflexivity | lia | lia | lia | simpl; lia].
Defined.

Lemma forallb_repeat v : forall l,
  forallb (fun d => d =? v) l = true <-> l = repeat v (length l).
Proof.
  induction l as [|x l IH]; simpl; [tauto|].
  rewrite andb_true_iff, Z.eqb_eq, IH. split.
  - intros [-> E]. now rewrite <- E.
  - intros [= -> E]. split; [reflexivity | exact E].
Qed.

Lemma setBlock_stops a v n s :
  constructed s -> 0 <= a < 4294967296 ->
  exists rv s', setBlock a v n s = Some (rv, s') /\
                stops_at_first_failure s rv s'.
Proof.
  intros Hc Ha. unfold setBlock, bind, world.
  apply pageBlock_stops; auto using u16_range.
Qed.

(** X7: [setBlockVerify] runs [setBlock]; its chunks are writes, and when
    all were acknowledged they tile the range and carry the fill value.
    If a chunk was refused it returns false and reads nothing.  Otherwise
    it runs [readBlock] over [memoryAddress, memoryAddress + length): the
    reads are those of that request.  It returns true exactly when every
    chunk of the fill was acknowledged, the read-back delivered all
    [length] bytes and each of them is the fill value.  After the fill it
    only reads, and the cells are those the fill left. *)
Theorem setBlockVerify_compares_read_back s a v length :
  constructed s -> 0 <= a < 4294967296 -> 0 <= length < 4294967296 ->
  exists b s' wl rl rv s1,
    setBlockVerify a v length s = Some (b, s') /\
    setBlock a v length s = Some (rv, s1) /\
    calls s1 = calls s ++ wl /\
    calls s' = calls s ++ wl ++ rl /\
    Forall (fun c => is_write c = true) wl /\
    Forall (fun c => is_write c = false) rl /\
    (rv = 0 <-> Forall (fun c => call_status c = 0) wl) /\
    (rv = 0 ->
     tiles a (u16 length) wl /\
     payload wl = repeat v (Z.to_nat (u16 length))) /\
    (rv <> 0 -> b = false /\ rl = [] /\ s' = s1) /\
    (rv = 0 ->
     sent rl = length /\
     read_passes (I2C_BUFFERSIZE (env s)) a length rl /\
     exists data r,
       readBlock a data length s1 = Some (r, s') /\ fst r = delivered rl) /\
    (b = true <->
     Forall (fun c => call_status c = 0) wl /\
     delivered rl = length /\
     payload rl = repeat v (Z.to_nat length)) /\
    w_mem (env s') = written (_deviceAddress (obj s)) (w_mem (env s)) wl.
Proof.
  intros Hc Ha Hl. unfold setBlockVerify, bind at 1.
  assert (Hset : setBlock a v length s
                 = _pageBlock a (repeat v (Z.to_nat (I2C_BUFFERSIZE (env s))))
                              (u16 length) false s) by reflexivity.
  rewrite Hset.
  destruct (pageBlock_runs a (repeat v (Z.to_nat (I2C_BUFFERSIZE (env s))))
              (u16 length) false s Hc Ha (u16_range _))
    as (rv & s1 & wl & Hw & S1 & Cw & R).
  rewrite Hw.
  destruct (write_run_status _ _ _ _ _ _ _ _ _ _ R) as [St0 St1].
  pose proof (write_run_writes _ _ _ _ _ _ _ _ _ _ R) as Fw.
  pose proof (write_run_written _ _ _ _ _ _ _ _ _ _ R) as Mw.
  assert (St : rv = 0 <-> Forall (fun c => call_status c = 0) wl).
  { split; [exact St0|]. intros HF.
    destruct (Z.eq_dec rv 0) as [|N]; [assumption|].
    destruct (St1 N) as (init & last & -> & _ & Hs).
    exfalso; eapply all_acknowledged_zero; eauto. }
  assert (Himg : rv = 0 ->
            tiles a (u16 length) wl /\
            payload wl = repeat v (Z.to_nat (u16 length))).
  { intros E. subst rv. pose proof (u16_range length).
    destruct (write_run_fill _ _ _ _ _ _ _ _ R) as (T & P & _);
      eauto using bufsize_cases; lia. }
  destruct (Z.eqb_spec rv 0) as [E|N]; cbn [negb].
  - unfold bind, uninitialised, world.
    set (data := firstn (Z.to_nat length)
                   (w_junk (env s1) ++ repeat 0 (Z.to_nat length))).
    destruct (readBlock_runs a data length s1 Ha Hl)
      as (r & s' & rl & Hr & _ & Mr & Cr & Fr & Hs & V & P & Hp).
    rewrite Hr. rewrite (bufsize_setup _ _ S1) in Hp.
    destruct (Z.eqb_spec (fst r) length) as [Ef|Ne]; cbn [negb]; unfold ret.
    + do 2 eexists. exists wl, rl, rv, s1. split; [reflexivity|].
      split; [reflexivity|]. split; [exact Cw|].
      split; [rewrite Cr, Cw, app_assoc; reflexivity|].
      split; [exact Fw|].
      split; [eapply read_of_is_read; eassumption|].
      split; [exact St|]. split; [exact Himg|].
      split; [intros N; contradiction|].
      split; [intros _; split; [exact Hs|]; split; [exact Hp|];
              exists data, r; split; assumption|].
      split; [|congruence].
      rewrite V in Ef. rewrite (P Ef), forallb_repeat.
      pose proof (payload_length rl) as Hpl.
      replace (List.length (payload rl)) with (Z.to_nat length) by lia.
      apply St in E. tauto.
    + do 2 eexists. exists wl, rl, rv, s1. split; [reflexivity|].
      split; [reflexivity|]. split; [exact Cw|].
      split; [rewrite Cr, Cw, app_assoc; reflexivity|].
      split; [exact Fw|].
      split; [eapply read_of_is_read; eassumption|].
      split; [exact St|]. split; [exact Himg|].
      split; [intros N; contradiction|].
      split; [intros _; split; [exact Hs|]; split; [exact Hp|];
              exists data, r; split; assumption|].
      split; [|congruence].
      rewrite V in Ne. split; [discriminate | tauto].
  - exists false, s1, wl, [], rv, s1. split; [reflexivity|].
    split; [reflexivity|]. split; [exact Cw|].
    split; [rewrite app_nil_r; exact Cw|].
    split; [exact Fw|]. split; [constructor|]. split; [exact St|].
    split; [exact Himg|]. split; [intros _; repeat split|].
    split; [intros E; contradiction|].
    split; [|exact Mw].
    split; [discriminate|]. intros (HF & _). apply St in HF. contradiction.
Qed.

Lemma setBlockVerify_compares_read_back_witness :
  let s := bench false pattern (fun _ => 0) in
  constructed s /\
  exists b s' wl rl rv s1,
    setBlockVerify 120 0 40 s = Some (b, s') /\
    setBlock 120 0 40 s = Some (rv, s1) /\
    calls s1 = calls s ++ wl /\
    calls s' = calls s ++ wl ++ rl /\
    Forall (fun c => is_write c = true) wl /\
    Forall (fun c => is_write c = false) rl /\
    (rv = 0 <-> Forall (fun c => call_status c = 0) wl) /\
    (rv = 0 ->
     tiles 120 (u16 40) wl /\
     payload wl = repeat 0 (Z.to_nat (u16 40))) /\
    (rv <> 0 -> b = false /\ rl = [] /\ s' = s1) /\
    (rv = 0 ->
     sent rl = 40 /\
     read_passes (I2C_BUFFERSIZE (env s)) 120 40 rl /\
     exists data r,
       readBlock 120 data 40 s1 = Some (r, s') /\ fst r = delivered rl) /\
    (b = true <->
     Forall (fun c => call_status c = 0) wl /\
     delivered rl = 40 /\
     payload rl = repeat 0 (Z.to_nat 40)) /\
    w_mem (env s') = written (_deviceAddress (obj s)) (w_mem (env s)) wl.
Proof.
  split; [reflexivity|].
  apply (setBlockVerify_compares_read_back
           (bench false pattern (fun _ => 0)) 120 0 40);
    [reflexivity | lia | lia].
Defined.

(** X8: [updateBlockVerify] runs [updateBlock], whose comparison reads are
    one pass of the chunk loop over the range and whose result is the
    number of bytes they delivered.  If that is not [length] it returns
    false and reads nothing more.  Otherwise it runs [readBlock] over
    [memoryAddress, memoryAddress + length).  It returns true exactly when
    the comparison reads delivered [length] bytes, the read-back delivered
    [length] bytes and these are the bytes of the buffer.  The statuses of
    the writes of the update play no part; the read-back only reads. *)
Theorem updateBlockVerify_compares_read_back s a buffer length :
  constructed s -> 0 <= a < 4294967296 -> 0 <= length < 4294967296 ->
  length <= Z.of_nat (List.length buffer) ->
  exists b s' ul rl n s1,
    updateBlockVerify a buffer length s = Some (b, s') /\
    updateBlock a buffer length s = Some (n, s1) /\
    calls s1 = calls s ++ ul /\
    calls s' = calls s ++ ul ++ rl /\
    n = delivered (reads ul) /\
    chunked (I2C_BUFFERSIZE (env s)) a length (reads ul) /\
    Forall (fun c => is_write c = false) rl /\
    (n <> length -> b = false /\ rl = [] /\ s' = s1) /\
    (n = length ->
     sent rl = length /\
     read_passes (I2C_BUFFERSIZE (env s)) a length rl /\
     exists data r,
       readBlock a data length s1 = Some (r, s') /\ fst r = delivered rl) /\
    (b = true <->
     delivered (reads ul) = length /\
     delivered rl = length /\
     payload rl = firstn (Z.to_nat length) buffer).
Proof.
  intros Hc Ha Hl Hb. rewrite updateBlockVerify_unfold.
  destruct (updateBlock_runs a buffer length s Hc Ha Hl)
    as (n & s1 & ul & Hu & S1 & Cu & N & K & _).
  rewrite Hu.
  destruct (Z.eqb_spec n length) as [E|Ne].
  - destruct (read_back_runs a buffer length s1 Ha Hl Hb)
      as (b & s' & rl & data & r & -> & Hr & Vr & _ & _ & Cr & Fr & Hs & Hp
          & Hbr).
    rewrite (bufsize_setup _ _ S1) in Hp.
    exists b, s', ul, rl, n, s1. split; [reflexivity|].
    split; [reflexivity|]. split; [exact Cu|].
    split; [rewrite Cr, Cu, app_assoc; reflexivity|].
    split; [exact N|]. split; [exact K|]. split; [exact Fr|].
    split; [intros F; contradiction|].
    split; [intros _; split; [exact Hs|]; split; [exact Hp|];
            exists data, r; split; assumption|].
    rewrite Hbr, <- N. tauto.
  - exists false, s1, ul, [], n, s1. split; [reflexivity|].
    split; [reflexivity|]. split; [exact Cu|].
    split; [rewrite app_nil_r; exact Cu|].
    split; [exact N|]. split; [exact K|]. split; [constructor|].
    split; [intros _; repeat split|].
    split; [intros E; contradiction|].
    rewrite <- N. split; [discriminate | tauto].
Qed.

Lemma updateBlockVerify_compares_read_back_witness :
  let s := bench false pattern (fun _ => 0) in
  let buffer := [9; 8; 7] in
  constructed s /\
  exists b s' ul rl n s1,
    updateBlockVerify 65535 buffer 3 s = Some (b, s') /\
    updateBlock 65535 buffer 3 s = Some (n, s1) /\
    calls s1 = calls s ++ ul /\
    calls s' = calls s ++ ul ++ rl /\
    n = delivered (reads ul) /\
    chunked (I2C_BUFFERSIZE (env s)) 65535 3 (reads ul) /\
    Forall (fun c => is_write c = false) rl /\
    (n <> 3 -> b = false /\ rl = [] /\ s' = s1) /\
    (n = 3 ->
     sent rl = 3 /\
     read_passes (I2C_BUFFERSIZE (env s)) 65535 3 rl /\
     exists data r,
       readBlock 65535 data 3 s1 = Some (r, s') /\ fst r = delivered rl) /\
    (b = true <->
     delivered (reads ul) = 3 /\
     delivered rl = 3 /\
     payload rl = firstn (Z.to_nat 3) buffer).
Proof.
  split; [reflexivity|].
  apply (updateBlockVerify_compares_read_back
           (bench false pattern (fun _ => 0)) 65535 [9; 8; 7] 3);
    [reflexivity | lia | lia | simpl; lia].
Defined.

(** ** The byte operations *)

Lemma one_cell dev a :
  bank (control_byte dev a) + a mod 65536 / 128 * 128
  + (a mod 65536 mod 128) mod 128 = cell dev a.
Proof. unfold cell. Z.div_mod_to_equations. lia. Qed.

Lemma writeByte_runs a d s :
  exists rv s',
    writeByte a d s = Some (rv, s') /\
    same_setup s s' /\
    calls s' = calls s ++ [CallWrite a 1 [d] rv] /\
    w_mem (env s') =
      if rv =? 0 then upd (w_mem (env s)) (cell (_deviceAddress (obj s)) a) d
      else w_mem (env s).
Proof.
  unfold writeByte.
  destruct (WriteBlock_spec a [d] 1 s) as (rv & s' & Hrun & S' & C' & M').
  change (firstn (Z.to_nat 1) [d]) with [d] in *.
  exists rv, s'. split; [exact Hrun|]. split; [exact S'|].
  split; [exact C'|]. rewrite M'.
  destruct (rv =? 0); [|reflexivity].
  cbn [page_store]. rewrite one_cell. reflexivity.
Qed.

Lemma readByte_runs a s :
  exists v s' got,
    readByte a s = Some (v, s') /\
    same_setup s s' /\
    w_mem (env s') = w_mem (env s) /\
    calls s' = calls s ++ [CallRead a 1 got] /\
    ((got = [w_mem (env s) (cell (_deviceAddress (obj s)) a)] /\
      v = w_mem (env s) (cell (_deviceAddress (obj s)) a)) \/
     (got = [] /\ v = junk_byte (env s))).
Proof.
  unfold readByte, bind, uninitialised, world.
  destruct (ReadBlock_spec a
              (firstn (Z.to_nat 1) (w_junk (env s) ++ repeat 0 (Z.to_nat 1)))
              1 s)
    as (got & s' & -> & S' & M' & C' & G' & R').
  unfold ret. cbn [snd].
  exists (hd 0 (got ++ skipn (length got)
                  (firstn (Z.to_nat 1)
                     (w_junk (env s) ++ repeat 0 (Z.to_nat 1))))), s', got.
  split; [reflexivity|]. split; [exact S'|]. split; [exact M'|].
  split; [exact C'|].
  destruct got as [|x [|y got]]; simpl in G'; try lia.
  - right. split; [reflexivity|]. unfold junk_byte.
    destruct (w_junk (env s)); reflexivity.
  - left. simpl in R'. injection R' as R'.
    rewrite Z.mod_mod in R' by lia. fold (cell (_deviceAddress (obj s)) a) in R'.
    split; [rewrite R' at 1; reflexivity | exact R'].
Qed.

(** X9: [readByte] issues one low-level read of one byte and changes no
    cell.  When the byte is delivered it returns the cell of the address;
    when the bus fails it has no way to say so and returns the value of its
    uninitialised local. *)
Theorem readByte_returns_cell_or_junk s a :
  exists v s' got,
    readByte a s = Some (v, s') /\
    calls s' = calls s ++ [CallRead a 1 got] /\
    w_mem (env s') = w_mem (env s) /\
    ((got = [w_mem (env s) (cell (_deviceAddress (obj s)) a)] /\
      v = w_mem (env s) (cell (_deviceAddress (obj s)) a)) \/
     (got = [] /\ v = junk_byte (env s))).
Proof.
  destruct (readByte_runs a s) as (v & s' & got & Hrun & _ & M & C & H).
  exists v, s', got. auto.
Qed.

(** X10: [updateByte] reads the byte first.  If the value read is the
    requested one it returns 0 without writing; otherwise it issues one
    write of one byte and returns its status, and the cell holds the new
    value when the write was acknowledged.  The value read is the cell
    when the read delivered a byte. *)
Theorem updateByte_writes_on_difference s a d :
  exists rv s' got cur,
    updateByte a d s = Some (rv, s') /\
    (got <> [] -> cur = w_mem (env s) (cell (_deviceAddress (obj s)) a)) /\
    (got = [] -> cur = junk_byte (env s)) /\
    (d = cur ->
     rv = 0 /\ calls s' = calls s ++ [CallRead a 1 got] /\
     w_mem (env s') = w_mem (env s)) /\
    (d <> cur ->
     calls s' = calls s ++ [CallRead a 1 got; CallWrite a 1 [d] rv] /\
     w_mem (env s') =
       if rv =? 0 then upd (w_mem (env s)) (cell (_deviceAddress (obj s)) a) d
       else w_mem (env s)).
Proof.
  unfold updateByte, bind.
  destruct (readByte_runs a s) as (cur & s1 & got & -> & S1 & M1 & C1 & H).
  assert (Hgot : (got <> [] -> cur = w_mem (env s) (cell (_deviceAddress (obj s)) a))
                 /\ (got = [] -> cur = junk_byte (env s))).
  { destruct H as [[-> ->] | [-> ->]]; split; congruence. }
  destruct Hgot as [Hg1 Hg2].
  destruct (Z.eqb_spec d cur) as [E|N].
  - exists 0, s1, got, cur. unfold ret.
    split; [reflexivity|]. split; [exact Hg1|]. split; [exact Hg2|].
    split; [auto | contradiction].
  - destruct (writeByte_runs a d s1) as (rv & s2 & -> & S2 & C2 & M2).
    exists rv, s2, got, cur.
    split; [reflexivity|]. split; [exact Hg1|]. split; [exact Hg2|].
    split; [contradiction|]. intros _.
    split; [rewrite C2, C1, <- app_assoc; reflexivity|].
    rewrite M2, M1, (su_dev _ _ S1). reflexivity.
Qed.

(** X11: [writeByteVerify] returns false without reading when the write is
    not acknowledged.  When it is, it reads the byte back: with the byte
    delivered the result is true and the cell holds the value; with the
    read failing, the result is the comparison of the value with the
    uninitialised local of [readByte]. *)
Theorem writeByteVerify_checks_cell s a d :
  exists b s' rv,
    writeByteVerify a d s = Some (b, s') /\
    (rv <> 0 ->
     b = false /\ calls s' = calls s ++ [CallWrite a 1 [d] rv] /\
     w_mem (env s') = w_mem (env s)) /\
    (rv = 0 ->
     exists got,
       calls s' = calls s ++ [CallWrite a 1 [d] 0; CallRead a 1 got] /\
       w_mem (env s') (cell (_deviceAddress (obj s)) a) = d /\
       (got <> [] -> b = true) /\
       (got = [] -> b = (junk_byte (env s) =? d))).
Proof.
  unfold writeByteVerify, bind.
  destruct (writeByte_runs a d s) as (rv & s1 & -> & S1 & C1 & M1).
  destruct (Z.eqb_spec rv 0) as [->|N]; cbn [negb].
  - destruct (readByte_runs a s1) as (v & s2 & got & -> & S2 & M2 & C2 & H).
    unfold ret. exists (v =? d), s2, 0.
    split; [reflexivity|]. split; [intros F; contradiction|]. intros _.
    exists got. cbn [Z.eqb] in M1.
    assert (Hcell : w_mem (env s1) (cell (_deviceAddress (obj s)) a) = d)
      by (rewrite M1; unfold upd; now rewrite Z.eqb_refl).
    split; [rewrite C2, C1, <- app_assoc; reflexivity|].
    split; [rewrite M2; exact Hcell|].
    rewrite (su_dev _ _ S1) in H.
    destruct H as [[-> ->] | [-> ->]].
    + split; [|intros F; discriminate].
      intros _. rewrite Hcell. apply Z.eqb_refl.
    + split; [intros F; contradiction|]. intros _.
      unfold junk_byte. rewrite (su_junk _ _ S1). reflexivity.
  - exists false, s1, rv. unfold ret.
    split; [reflexivity|]. split; [|contradiction]. intros _.
    split; [reflexivity|]. split; [exact C1|].
    rewrite M1. destruct (Z.eqb_spec rv 0); [contradiction | reflexivity].
Qed.

(** X12: [updateByteVerify], when every read delivers its byte and the
    write, if one is issued, is acknowledged: the result is true and the
    cell holds the value. *)
Theorem updateByteVerify_succeeds s a d :
  exists b s' l,
    updateByteVerify a d s = Some (b, s') /\
    calls s' = calls s ++ l /\
    (Forall complete (reads l) ->
     Forall (fun c => call_status c = 0) (writes l) ->
     b = true /\ w_mem (env s') (cell (_deviceAddress (obj s)) a) = d).
Proof.
  unfold updateByteVerify, updateByte, bind.
  destruct (readByte_runs a s) as (cur & s1 & got & -> & S1 & M1 & C1 & H1).
  destruct (Z.eqb_spec d cur) as [E|N]; unfold ret at 1.
  - cbn [Z.eqb negb].
    destruct (readByte_runs a s1) as (v & s2 & got2 & -> & S2 & M2 & C2 & H2).
    unfold ret. exists (v =? d), s2, [CallRead a 1 got; CallRead a 1 got2].
    split; [reflexivity|].
    split; [rewrite C2, C1, <- app_assoc; reflexivity|].
    intros HC _. cbn in HC.
    inversion HC as [|c0 l0 Hc1 HC']; subst.
    inversion HC' as [|c0 l0 Hc2 _]; subst.
    unfold complete in Hc1, Hc2; cbn in Hc1, Hc2.
    rewrite (su_dev _ _ S1), M1 in H2.
    destruct H1 as [[-> ->] | [-> _]]; [|simpl in Hc1; lia].
    destruct H2 as [[-> ->] | [-> _]]; [|simpl in Hc2; lia].
    rewrite M2, M1. split; [apply Z.eqb_refl | reflexivity].
  - destruct (writeByte_runs a d s1) as (rv & s2 & -> & S2 & C2 & M2).
    destruct (Z.eqb_spec rv 0) as [->|Nrv]; cbn [negb].
    + destruct (readByte_runs a s2) as (v & s3 & got2 & -> & S3 & M3 & C3 & H3).
      unfold ret.
      exists (v =? d), s3,
        [CallRead a 1 got; CallWrite a 1 [d] 0; CallRead a 1 got2].
      split; [reflexivity|].
      split; [rewrite C3, C2, C1, <- !app_assoc; reflexivity|].
      intros HC _. cbn in HC.
      inversion HC as [|c0 l0 _ HC']; subst.
      inversion HC' as [|c0 l0 Hc2 _]; subst.
      unfold complete in Hc2; cbn in Hc2.
      cbn [Z.eqb] in M2.
      assert (Hcell : w_mem (env s2) (cell (_deviceAddress (obj s)) a) = d).
      { rewrite M2, (su_dev _ _ S1). unfold upd. now rewrite Z.eqb_refl. }
      rewrite (su_dev _ _ (same_setup_trans _ _ _ S1 S2)) in H3.
      destruct H3 as [[-> ->] | [-> _]]; [|simpl in Hc2; lia].
      rewrite M3. split; [rewrite Hcell; apply Z.eqb_refl | exact Hcell].
    + unfold ret.
      exists false, s2, [CallRead a 1 got; CallWrite a 1 [d] rv].
      split; [reflexivity|].
      split; [rewrite C2, C1, <- app_assoc; reflexivity|].
      intros _ HW. cbn in HW. inversion HW; subst. contradiction.
Qed.

(** ** The bound of the gate *)

Lemma polling_count c W s s' :
  polling c W (fun x => x) s s' -> W <= 260000 ->
  Z.of_nat (length (w_probes (env s')))
  <= Z.of_nat (length (w_probes (env s))) + Z.max 0 (W + 1 - elapsed s).
Proof.
  induction 1 as [s He | s He Hack | s s' He Hnack Hp IH]; intros HW.
  - lia.
  - simpl. rewrite length_app. simpl. lia.
  - specialize (IH HW).
    rewrite (elapsed_after_probe c s W He HW) in IH.
    pose proof (tick_range (env s)).
    simpl in IH. rewrite length_app in IH. simpl in IH. lia.
Qed.

(** X14: the gate is bounded: it sends at most one probe per microsecond
    left before the deadline, plus one, so never more than 260001. *)
Theorem waitEEReady_probe_bound s :
  exists s',
    _waitEEReady s = Some (tt, s') /\
    Z.of_nat (length (w_probes (env s')))
    <= Z.of_nat (length (w_probes (env s)))
       + Z.max 0 (waitTime (obj s) + 1 - elapsed s) /\
    Z.of_nat (length (w_probes (env s')))
    <= Z.of_nat (length (w_probes (env s))) + 260001.
Proof.
  destruct (waitEEReady_runs s) as (s' & Hgate & Hp).
  pose proof (waitTime_range (obj s)) as HW.
  pose proof (polling_count _ _ _ _ Hp (proj2 HW)) as Hc.
  pose proof (u32_range (u32 (w_now (env s)) - _lastWrite (obj s))) as He.
  fold (elapsed s) in He.
  exists s'. split; [exact Hgate|]. split; [exact Hc|]. lia.
Qed.

(** ** What updateBlock changes, and what it establishes *)

Lemma update_run_frame dev bs junk a buffer len m l m' :
  update_run dev bs junk a buffer len m l m' ->
  bs = 30 \/ bs = 128 -> 0 <= a < 4294967296 ->
  forall k,
    (forall i, 0 <= i < len -> cell dev (u32 (a + i)) <> k) ->
    m' k = m k.
Proof.
  intros R Hbs.
  induction R as [| a buffer len m got l m' Hp Hr Hm R IH
                  | a buffer len m got wl rv m1 l m' Hp Hr Hm W R IH];
    intros Ha k Hk; try reflexivity.
  - set (cnt := Z.min bs len) in *.
    apply IH; [apply u32_range|].
    intros i Hi. rewrite u32_add_l.
    replace (a + cnt + i) with (a + (cnt + i)) by lia. apply Hk. lia.
  - set (cnt := Z.min bs len) in *.
    rewrite IH.
    + eapply write_run_frame; eauto. intros i Hi. apply Hk. lia.
    + apply u32_range.
    + intros i Hi. rewrite u32_add_l.
      replace (a + cnt + i) with (a + (cnt + i)) by lia. apply Hk. lia.
Qed.

Lemma writes_app l1 l2 : writes (l1 ++ l2) = writes l1 ++ writes l2.
Proof. apply filter_app. Qed.

Lemma writes_of_writes l :
  Forall (fun c => is_write c = true) l -> writes l = l.
Proof.
  induction 1 as [|c l Hc _ IH]; [reflexivity|].
  unfold writes in *; simpl. rewrite Hc, IH. reflexivity.
Qed.

Lemma update_run_establishes dev bs junk a buffer len m l m' :
  update_run dev bs junk a buffer len m l m' ->
  bs = 30 \/ bs = 128 -> 0 <= a -> a + len <= 4294967296 ->
  0 <= len <= 65536 -> len <= Z.of_nat (length buffer) ->
  Forall (fun c => complete c /\ within 65536 c) (reads l) ->
  Forall (fun c => call_status c = 0) (writes l) ->
  content dev m' a (Z.to_nat len) = firstn (Z.to_nat len) buffer.
Proof.
  intros R Hbs.
  induction R as [| a buffer len m got l m' Hp Hr Hm R IH
                  | a buffer len m got wl rv m1 l m' Hp Hr Hm W R IH];
    intros Ha H32 Hl Hb HR HW.
  - replace len with 0 by lia. reflexivity.
  - set (cnt := Z.min bs len) in *.
    cbn in HR. fold (reads l) in HR.
    inversion HR as [|c0 l0 [Hfull Hin] HR']; subst c0 l0.
    cbn in HW. fold (writes l) in HW.
    unfold complete, within in Hfull, Hin; cbn in Hfull, Hin.
    destruct Hr as (_ & _ & Hgot); cbn in Hgot.
    rewrite seq_read_content in Hgot
      by (try lia; rewrite Hfull; apply within_bank_offset; lia).
    assert (Hn : length got = Z.to_nat cnt) by lia.
    apply memcmp_zero_iff in Hm; [| lia | rewrite length_app; lia].
    rewrite <- Hn in Hm at 2.
    rewrite firstn_app, firstn_all, Nat.sub_diag, firstn_O, app_nil_r in Hm.
    assert (Hrest : content dev m' (u32 (a + cnt)) (Z.to_nat (len - cnt))
                    = firstn (Z.to_nat (len - cnt))
                             (skipn (Z.to_nat cnt) buffer)).
    { destruct (Z.eq_dec (len - cnt) 0) as [E0|N0];
        [rewrite E0; reflexivity|].
      rewrite (u32_small (a + cnt)) in IH |- * by lia.
      apply IH; auto; try lia. rewrite length_skipn. lia. }
    replace (Z.to_nat len) with (Z.to_nat cnt + Z.to_nat (len - cnt))%nat by lia.
    rewrite content_app, firstn_split by lia.
    rewrite Z2Nat.id, Hrest by lia. f_equal.
    rewrite Hm, Hgot, Hn.
    apply content_frame; [lia|].
    intros i Hi.
    eapply update_run_frame; eauto; [apply u32_range|].
    intros j Hj. rewrite u32_add_l.
    replace (a + cnt + j) with (a + (cnt + j)) by lia.
    apply cell_distinct; lia.
  - set (cnt := Z.min bs len) in *.
    assert (E : reads (CallRead a cnt got :: wl ++ l)
                = CallRead a cnt got :: reads l).
    { cbn. fold (reads (wl ++ l)).
      rewrite reads_app, (reads_of_writes wl), app_nil_l
        by (eapply write_run_writes; eassumption). reflexivity. }
    rewrite E in HR. inversion HR as [|c0 l0 _ HR']; subst c0 l0.
    cbn in HW. fold (writes (wl ++ l)) in HW.
    rewrite writes_app, (writes_of_writes wl) in HW
      by (eapply write_run_writes; eassumption).
    apply Forall_app in HW as [HWl HW].
    assert (Hrv : rv = 0).
    { destruct (Z.eq_dec rv 0) as [|N]; [assumption|].
      destruct (write_run_status _ _ _ _ _ _ _ _ _ _ W) as [_ St1].
      destruct (St1 N) as (init & last & -> & _ & Hs).
      exfalso; eapply all_acknowledged_zero; eauto. }
    subst rv.
    destruct (write_run_image _ _ _ _ _ _ _ _ W) as (_ & _ & Mw);
      auto; try lia.
    assert (Hn : length (firstn (Z.to_nat cnt) buffer) = Z.to_nat cnt)
      by (rewrite length_firstn; lia).
    assert (Hrest : content dev m' (u32 (a + cnt)) (Z.to_nat (len - cnt))
                    = firstn (Z.to_nat (len - cnt))
                             (skipn (Z.to_nat cnt) buffer)).
    { destruct (Z.eq_dec (len - cnt) 0) as [E0|N0];
        [rewrite E0; reflexivity|].
      rewrite (u32_small (a + cnt)) in IH |- * by lia.
      apply IH; auto; try lia. rewrite length_skipn. lia. }
    replace (Z.to_nat len) with (Z.to_nat cnt + Z.to_nat (len - cnt))%nat by lia.
    rewrite content_app, firstn_split by lia.
    rewrite Z2Nat.id, Hrest by lia. f_equal.
    transitivity (content dev m1 a (Z.to_nat cnt)).
    + apply content_frame; [lia|].
      intros i Hi.
      eapply update_run_frame; eauto; [apply u32_range|].
      intros j Hj. rewrite u32_add_l.
      replace (a + cnt + j) with (a + (cnt + j)) by lia.
      apply cell_distinct; lia.
    + rewrite Mw. set (d := firstn (Z.to_nat cnt) buffer) in *.
      rewrite <- Hn. apply content_store; lia.
Qed.

Lemma updateBlock_skips_equal_chunks_witness :
  let s := bench false pattern (fun _ => 0) in
  let buffer := content (_deviceAddress (obj s)) (w_mem (env s)) 65476 60 in
  constructed s /\
  content (_deviceAddress (obj s)) (w_mem (env s)) 65476 (Z.to_nat 60)
    = firstn (Z.to_nat 60) buffer /\
  exists n s' l,
    updateBlock 65476 buffer 60 s = Some (n, s') /\
    calls s' = calls s ++ l /\
    (Forall (fun c => complete c /\ within 65536 c) (reads l) ->
     writes l = [] /\ w_mem (env s') = w_mem (env s)).
Proof.
  split; [reflexivity|]. split; [reflexivity|].
  apply (updateBlock_skips_equal_chunks
           (bench false pattern (fun _ => 0)) 65476
           (content 80 pattern 65476 60) 60);
    [reflexivity | lia | lia | vm_compute; discriminate | reflexivity].
Defined.

(** X16: whatever the bus answers, [updateBlock] changes no cell but those
    of the addresses in the range it was given. *)
Theorem updateBlock_stays_in_range s a buffer length :
  constructed s -> 0 <= a < 4294967296 -> 0 <= length < 4294967296 ->
  exists n s',
    updateBlock a buffer length s = Some (n, s') /\
    forall k,
      (forall i, 0 <= i < length ->
         cell (_deviceAddress (obj s)) (u32 (a + i)) <> k) ->
      w_mem (env s') k = w_mem (env s) k.
Proof.
  intros Hc Ha Hl.
  destruct (updateBlock_runs a buffer length s Hc Ha Hl)
    as (n & s' & l & Hrun & _ & _ & _ & _ & U).
  exists n, s'. split; [exact Hrun|].
  eapply update_run_frame; eauto using bufsize_cases.
Qed.

Lemma updateBlock_stays_in_range_witness :
  let s := bench false pattern (fun n => if Nat.eqb n 4 then 2 else 0) in
  constructed s /\
  exists n s',
    updateBlock 65530 (repeat 1 50) 50 s = Some (n, s') /\
    forall k,
      (forall i, 0 <= i < 50 ->
         cell (_deviceAddress (obj s)) (u32 (65530 + i)) <> k) ->
      w_mem (env s') k = w_mem (env s) k.
Proof.
  split; [reflexivity|].
  apply (updateBlock_stays_in_range
           (bench false pattern (fun n => if Nat.eqb n 4 then 2 else 0))
           65530 (repeat 1 50) 50);
    [reflexivity | lia | lia].
Defined.

(** X17: an update of at most 65536 bytes whose comparison reads are all
    complete and none of which runs over the end of a bank, and whose
    writes are all acknowledged: [updateBlock] returns [length] and the
    cells of the range hold the bytes of the buffer, whatever they held
    before. *)
Theorem updateBlock_establishes_buffer s a buffer length :
  constructed s -> 0 <= a < 4294967296 -> 0 <= length <= 65536 ->
  a + length <= 4294967296 ->
  length <= Z.of_nat (List.length buffer) ->
  exists n s' l,
    updateBlock a buffer length s = Some (n, s') /\
    calls s' = calls s ++ l /\
    (Forall (fun c => complete c /\ within 65536 c) (reads l) ->
     Forall (fun c => call_status c = 0) (writes l) ->
     n = length /\
     content (_deviceAddress (obj s)) (w_mem (env s')) a (Z.to_nat length)
       = firstn (Z.to_nat length) buffer).
Proof.
  intros Hc Ha Hl H32 Hb.
  destruct (updateBlock_runs a buffer length s) as
    (n & s' & l & Hrun & _ & C & N & K & U); try assumption; try lia.
  exists n, s', l. split; [exact Hrun|]. split; [exact C|].
  intros HR HW. split.
  - rewrite N, complete_delivered.
    + eapply chunked_sent; eassumption.
    + eapply Forall_impl; [|exact HR]. now intros c [].
  - eapply update_run_establishes; eauto using bufsize_cases; lia.
Qed.

Lemma updateBlock_establishes_buffer_witness :
  let s := bench true pattern (fun _ => 0) in
  let buffer := repeat 170 200 in
  constructed s /\
  exists n s' l,
    updateBlock 65280 buffer 200 s = Some (n, s') /\
    calls s' = calls s ++ l /\
    (Forall (fun c => complete c /\ within 65536 c) (reads l) ->
     Forall (fun c => call_status c = 0) (writes l) ->
     n = 200 /\
     content (_deviceAddress (obj s)) (w_mem (env s')) 65280 (Z.to_nat 200)
       = firstn (Z.to_nat 200) buffer).
Proof.
  split; [reflexivity|].
  apply (updateBlock_establishes_buffer
           (bench true pattern (fun _ => 0)) 65280 (repeat 170 200) 200);
    [reflexivity | lia | lia | lia | simpl; lia].
Defined.

(** ** The low-level read, the second polling loop, and begin *)

(** X18: [_ReadBlock] issues one low-level read, changes no cell, and
    never reports more bytes than it was asked for; the bytes delivered
    replace the start of the buffer and the rest of the buffer is left as it
    was, so after a failed read the buffer is the one passed in. *)
Theorem ReadBlock_overwrites_a_prefix s a buffer length :
  0 <= length <= 255 ->
  exists n buffer' s' got,
    _ReadBlock a buffer length s = Some ((n, buffer'), s') /\
    calls s' = calls s ++ [CallRead a length got] /\
    w_mem (env s') = w_mem (env s) /\
    n = Z.of_nat (List.length got) /\ 0 <= n <= length /\
    buffer' = got ++ skipn (List.length got) buffer /\
    (n = 0 -> buffer' = buffer).
Proof.
  intros Hl.
  destruct (ReadBlock_spec a buffer length s)
    as (got & s' & Hrun & _ & M & C & G & _).
  rewrite u8_small in Hrun by lia.
  exists (Z.of_nat (List.length got)),
         (got ++ skipn (List.length got) buffer), s', got.
  split; [exact Hrun|]. split; [exact C|]. split; [exact M|].
  split; [reflexivity|]. split; [lia|]. split; [reflexivity|].
  intros E. destruct got; [reflexivity | simpl in E; lia].
Qed.

Lemma ReadBlock_overwrites_a_prefix_witness :
  let s := bench false pattern (fun n => if Nat.eqb n 0 then 4 else 0) in
  exists n buffer' s' got,
    _ReadBlock 7 [1; 2; 3] 3 s = Some ((n, buffer'), s') /\
    calls s' = calls s ++ [CallRead 7 3 got] /\
    w_mem (env s') = w_mem (env s) /\
    n = Z.of_nat (List.length got) /\ 0 <= n <= 3 /\
    buffer' = got ++ skipn (List.length got) [1; 2; 3] /\
    (n = 0 -> buffer' = [1; 2; 3]).
Proof.
  apply (ReadBlock_overwrites_a_prefix
           (bench false pattern (fun n => if Nat.eqb n 0 then 4 else 0))
           7 [1; 2; 3] 3); lia.
Defined.

Lemma polling_probes_paused c W us s s' :
  polling c W (paused us) s s' ->
  exists new,
    w_probes (env s') = w_probes (env s) ++ new /\
    Forall (fun p => p_ctrl p = c /\
                     u32 (p_time p - _lastWrite (obj s)) <= W) new /\
    Forall (fun p => p_status p <> 0) (removelast new) /\
    ((new <> [] /\ p_status (last new (mkProbe 0 0 0)) = 0) \/ W < elapsed s').
Proof.
  induction 1 as [s He | s He Hack | s s' He Hnack Hp IH].
  - exists []. rewrite app_nil_r.
    split; [reflexivity|]. split; [constructor|]. split; [constructor|].
    right; exact He.
  - exists [mkProbe (u32 (w_now (env s))) c (status (env s))].
    split; [reflexivity|]. split; [|split].
    + constructor; [|constructor]. split; [reflexivity | exact He].
    + constructor.
    + left. split; [discriminate | exact Hack].
  - destruct IH as (new & Hw & HF & HN & Hend).
    exists (mkProbe (u32 (w_now (env s))) c (status (env s)) :: new).
    split; [rewrite Hw; simpl; rewrite <- app_assoc; reflexivity|].
    split; [constructor; [split; [reflexivity | exact He] | exact HF]|].
    destruct new as [|p new].
    + split; [constructor|]. right.
      destruct Hend as [[N _]|Hend]; [contradiction | exact Hend].
    + split.
      * change (removelast (?x :: p :: new)) with (x :: removelast (p :: new)).
        constructor; [exact Hnack | exact HN].
      * destruct Hend as [[_ Hl]|Hend]; [left | right; exact Hend].
        split; [discriminate | exact Hl].
Qed.

(** X19: the polling loop inside [_beginTransmission] probes the resolved
    control byte, the one with the bank bit, not the base address; it
    probes only after a clock reading inside the deadline, every probe but
    the last was refused, and it ends on an acknowledged probe or past the
    deadline. *)
Theorem beginTransmission_polls_the_bank s a :
  exists hdr s' new,
    _beginTransmission a s = Some (hdr, s') /\
    w_probes (env s') = w_probes (env s) ++ new /\
    Forall (fun p =>
              p_ctrl p = control_byte (_deviceAddress (obj s)) a /\
              u32 (p_time p - _lastWrite (obj s)) <= waitTime (obj s)) new /\
    Forall (fun p => p_status p <> 0) (removelast new) /\
    ((new <> [] /\ p_status (last new (mkProbe 0 0 0)) = 0) \/
     waitTime (obj s) < elapsed s').
Proof.
  destruct (beginTransmission_runs a s) as (s' & Hrun & Hp).
  destruct (polling_probes_paused _ _ _ _ _ Hp) as (new & Hw & HF & HN & Hend).
  exists (address_bytes a), s', new.
  split; [exact Hrun|]. split; [exact Hw|]. split; [exact HF|].
  split; [exact HN | exact Hend].
Qed.

(** X20: [begin] sends one probe to the device address and returns
    whether it was acknowledged; it issues no block transfer, changes no
    cell, and resets the write stamp, so that the time the gate measures
    afterwards is the clock itself. *)
Theorem begin_probes_once s :
  exists b s',
    begin s = Some (b, s') /\
    (b = true <-> status (env s) = 0) /\
    w_probes (env s') =
      w_probes (env s)
      ++ [mkProbe (u32 (w_now (env s))) (_deviceAddress (obj s))
                  (status (env s))] /\
    calls s' = calls s /\
    w_mem (env s') = w_mem (env s) /\
    _lastWrite (obj s') = 0 /\
    elapsed s' = u32 (w_now (env s')).
Proof.
  unfold begin, isConnected, bind, set_obj, field. cbn [obj env calls].
  rewrite wire_probe_eq. unfold ret.
  do 2 eexists. split; [reflexivity|].
  split; [apply Z.eqb_eq|].
  repeat split.
  unfold elapsed. cbn [obj after_probe set_lastWrite _lastWrite].
  rewrite Z.sub_0_r. unfold u32. apply Z.mod_mod. lia.
Qed.

(** ** The other verify wrappers on a bus that answers *)

(** X21: a fill of fewer than 65536 bytes inside the device, with its
    verification: when every chunk is acknowledged and every read of the
    read-back is complete, [setBlockVerify] returns true and every cell of
    the range holds the fill value. *)
Theorem setBlockVerify_succeeds s a v length :
  constructed s -> 0 <= a -> 0 <= length < 65536 -> a + length <= 131072 ->
  exists b s' wl rl,
    setBlockVerify a v length s = Some (b, s') /\
    calls s' = calls s ++ wl ++ rl /\
    Forall (fun c => is_write c = true) wl /\
    Forall (fun c => is_write c = false) rl /\
    (Forall (fun c => call_status c = 0) wl -> Forall complete rl ->
     b = true /\
     content (_deviceAddress (obj s)) (w_mem (env s')) a (Z.to_nat length)
       = repeat v (Z.to_nat length)).
Proof.
  intros Hc Ha Hl Hd.
  unfold setBlockVerify, bind at 1. unfold setBlock, bind at 1, world at 1.
  rewrite (u16_small length) by lia.
  destruct (pageBlock_runs a
              (repeat v (Z.to_nat (I2C_BUFFERSIZE (env s)))) length false s)
    as (rv & s1 & wl & -> & S1 & Cw & R); try assumption; try lia.
  destruct (write_run_status _ _ _ _ _ _ _ _ _ _ R) as [St0 St1].
  pose proof (write_run_writes _ _ _ _ _ _ _ _ _ _ R) as Fw.
  destruct (Z.eqb_spec rv 0) as [->|N]; cbn [negb].
  - destruct (write_run_fill _ _ _ _ _ _ _ _ R) as (_ & _ & Mw);
      eauto using bufsize_cases; try lia.
    unfold bind, uninitialised, world.
    destruct (readBlock_payload a
                (firstn (Z.to_nat length)
                   (w_junk (env s1) ++ repeat 0 (Z.to_nat length)))
                length s1)
      as (r & s' & rl & -> & _ & Mr & Cr & Fr & Hs & V & P & Hcells);
      try lia.
    assert (Hstored :
      content (_deviceAddress (obj s)) (w_mem (env s1)) a (Z.to_nat length)
      = repeat v (Z.to_nat length)).
    { rewrite Mw. set (d := repeat v (Z.to_nat length)).
      replace (Z.to_nat length) with (List.length d)
        by (unfold d; apply repeat_length).
      apply content_store; [lia|]. unfold d. rewrite repeat_length. lia. }
    assert (Hgood : Forall complete rl ->
              fst r = length /\
              firstn (Z.to_nat length) (snd r) = repeat v (Z.to_nat length)).
    { intros HC.
      assert (Hfull : delivered rl = length)
        by (rewrite (complete_delivered _ HC); exact Hs).
      split; [congruence|].
      rewrite (P Hfull), (Hcells HC), (su_dev _ _ S1). exact Hstored. }
    destruct (Z.eqb_spec (fst r) length) as [E|Ne]; cbn [negb]; unfold ret.
    + do 4 eexists. split; [reflexivity|].
      split; [rewrite Cr, Cw, app_assoc; reflexivity|].
      split; [exact Fw|]. split; [exact Fr|].
      intros _ HC. destruct (Hgood HC) as [_ Hdata].
      split; [|rewrite Mr; exact Hstored].
      apply forallb_repeat. rewrite Hdata at 1.
      rewrite Hdata, repeat_length. reflexivity.
    + do 4 eexists. split; [reflexivity|].
      split; [rewrite Cr, Cw, app_assoc; reflexivity|].
      split; [exact Fw|]. split; [exact Fr|].
      intros _ HC. destruct (Hgood HC) as [E _]. contradiction.
  - exists false, s1, wl, []. unfold ret. split; [reflexivity|].
    split; [rewrite app_nil_r; exact Cw|].
    split; [exact Fw|]. split; [constructor|].
    intros HF _. exfalso.
    destruct (St1 N) as (init & last & -> & _ & Hs).
    eapply all_acknowledged_zero; eauto.
Qed.

Lemma setBlockVerify_succeeds_witness :
  let s := bench false pattern (fun _ => 0) in
  constructed s /\
  exists b s' wl rl,
    setBlockVerify 0 255 1000 s = Some (b, s') /\
    calls s' = calls s ++ wl ++ rl /\
    Forall (fun c => is_write c = true) wl /\
    Forall (fun c => is_write c = false) rl /\
    (Forall (fun c => call_status c = 0) wl -> Forall complete rl ->
     b = true /\
     content (_deviceAddress (obj s)) (w_mem (env s')) 0 (Z.to_nat 1000)
       = repeat 255 (Z.to_nat 1000)).
Proof.
  split; [reflexivity|].
  apply (setBlockVerify_succeeds (bench false pattern (fun _ => 0)) 0 255 1000);
    [reflexivity | lia | lia | lia].
Defined.

(** X22: an update of fewer than 65536 bytes inside the device, with its
    verification: when every read is complete, no comparison read runs
    over the end of a bank and every write is acknowledged,
    [updateBlockVerify] returns true and the cells of the range hold the
    bytes of the buffer. *)
Theorem updateBlockVerify_succeeds s a buffer length :
  constructed s -> 0 <= a -> 0 <= length < 65536 -> a + length <= 131072 ->
  length <= Z.of_nat (List.length buffer) ->
  exists b s' ul rl,
    updateBlockVerify a buffer length s = Some (b, s') /\
    calls s' = calls s ++ ul ++ rl /\
    Forall (fun c => is_write c = false) rl /\
    (Forall (fun c => complete c /\ within 65536 c) (reads ul) ->
     Forall (fun c => call_status c = 0) (writes ul) ->
     Forall complete rl ->
     b = true /\
     content (_deviceAddress (obj s)) (w_mem (env s')) a (Z.to_nat length)
       = firstn (Z.to_nat length) buffer).
Proof.
  intros Hc Ha Hl Hd Hb. rewrite updateBlockVerify_unfold.
  destruct (updateBlock_runs a buffer length s) as
    (n & s1 & ul & -> & S1 & Cu & N & K & U); try assumption; try lia.
  assert (Hest :
    Forall (fun c => complete c /\ within 65536 c) (reads ul) ->
    Forall (fun c => call_status c = 0) (writes ul) ->
    n = length /\
    content (_deviceAddress (obj s)) (w_mem (env s1)) a (Z.to_nat length)
      = firstn (Z.to_nat length) buffer).
  { intros HR HW. split.
    - rewrite N, complete_delivered.
      + eapply chunked_sent; eassumption.
      + eapply Forall_impl; [|exact HR]. now intros c [].
    - eapply update_run_establishes; eauto using bufsize_cases; lia. }
  destruct (Z.eqb_spec n length) as [E|Ne].
  - destruct (read_back_cells a buffer length s1) as
      (b & s' & rl & -> & _ & Mr & Cr & Fr & Hbr & Hcells); try lia.
    exists b, s', ul, rl. split; [reflexivity|].
    split; [rewrite Cr, Cu, app_assoc; reflexivity|].
    split; [exact Fr|].
    intros HR HW HC. destruct (Hest HR HW) as [_ Hstored].
    destruct (Hcells HC) as [Hfull Hpay].
    split; [|rewrite Mr; exact Hstored].
    apply Hbr. split; [exact Hfull|].
    rewrite Hpay, (su_dev _ _ S1). exact Hstored.
  - exists false, s1, ul, []. split; [reflexivity|].
    split; [rewrite app_nil_r; exact Cu|].
    split; [constructor|].
    intros HR HW _. destruct (Hest HR HW) as [E _]. contradiction.
Qed.

Lemma updateBlockVerify_succeeds_witness :
  let s := bench false pattern (fun _ => 0) in
  let buffer := repeat 5 90 in
  constructed s /\
  exists b s' ul rl,
    updateBlockVerify 65536 buffer 90 s = Some (b, s') /\
    calls s' = calls s ++ ul ++ rl /\
    Forall (fun c => is_write c = false) rl /\
    (Forall (fun c => complete c /\ within 65536 c) (reads ul) ->
     Forall (fun c => call_status c = 0) (writes ul) ->
     Forall complete rl ->
     b = true /\
     content (_deviceAddress (obj s)) (w_mem (env s')) 65536 (Z.to_nat 90)
       = firstn (Z.to_nat 90) buffer).
Proof.
  split; [reflexivity|].
  apply (updateBlockVerify_succeeds
           (bench false pattern (fun _ => 0)) 65536 (repeat 5 90) 90);
    [reflexivity | lia | lia | lia | simpl; lia].
Defined.


(** ** The wrappers run on the bench *)

Example writeBlockVerify_on_the_bench :
  run (writeBlockVerify 65534 [1; 2; 3; 4; 5] 5)
      (bench false pattern (fun _ => 0))
      (fun b s' => (b, map call_addr (calls s')))
  = Some (true, [65534; 65536; 65534; 65536]).
Proof. vm_compute. reflexivity. Qed.

Example updateBlockVerify_on_the_bench :
  run (updateBlockVerify 65536 (repeat 5 90) 90)
      (bench false pattern (fun _ => 0))
      (fun b s' => (b, length (reads (calls s')), length (writes (calls s'))))
  = Some (true, 6%nat, 3%nat).
Proof. vm_compute. reflexivity. Qed.

Example setBlockVerify_on_the_bench :
  run (setBlockVerify 0 255 1000) (bench true pattern (fun _ => 0))
      (fun b s' => (b, length (writes (calls s'))))
  = Some (true, 8%nat).
Proof. vm_compute. reflexivity. Qed.

Example updateByteVerify_on_the_bench :
  run (updateByteVerify 70000 33) (bench false pattern (fun _ => 0))
      (fun b s' => (b, w_mem (env s') (65536 + 4464)))
  = Some (true, 33).
Proof. vm_compute. reflexivity. Qed.
